(** * TimedCache (utils/containers.py): a dictionary whose keys delete
      themselves a fixed time after they were inserted.

    The development embeds the class [TimedCache] method by method.  Python
    values are a small tagged union, [self.storage] is an insertion-ordered
    association list (a Python [dict]), the asyncio event loop is the list
    of tasks it was asked to create, and every method is a computation in a
    state-and-exception monad over the object's state. *)

From Stdlib Require Import ZArith Lia.
From stdpp Require Import base list strings.

Open Scope Z_scope.

(** ** Python values, exceptions *)

Inductive exn : Type :=
  | TypeError
  | ValueError
  | KeyError
  | AttributeError
  | IndexError
  | RuntimeError
  | OverflowError.

Inductive res (A : Type) : Type :=
  | Ok (a : A)
  | Raise (e : exn).
Arguments Ok {A} a.
Arguments Raise {A} e.

(** The objects that flow through [get]: stored values, defaults, the
    stored [(value, task)] tuple.  [PyTask h] is the [asyncio.Task] with
    handle [h]. *)
#[warnings="-register-all"]
Inductive pyval : Type :=
  | PyNone
  | PyBool (b : bool)
  | PyInt (z : Z)
  | PyStr (s : string)
  | PyList (l : list pyval)
  | PyTuple (l : list pyval)
  | PyTask (h : nat).

(** [bool(v)]. *)
Definition truthy (v : pyval) : bool :=
  match v with
  | PyNone => false
  | PyBool b => b
  | PyInt z => negb (z =? 0)
  | PyStr s => match s with EmptyString => false | String _ _ => true end
  | PyList l => match l with [] => false | _ :: _ => true end
  | PyTuple l => match l with [] => false | _ :: _ => true end
  | PyTask _ => true
  end.

(** [v[0]]. *)
Definition subscript0 (v : pyval) : res pyval :=
  match v with
  | PyStr (String c _) => Ok (PyStr (String c EmptyString))
  | PyStr EmptyString => Raise IndexError
  | PyList (x :: _) => Ok x
  | PyList [] => Raise IndexError
  | PyTuple (x :: _) => Ok x
  | PyTuple [] => Raise IndexError
  | PyNone | PyBool _ | PyInt _ | PyTask _ => Raise TypeError
  end.

(** ** Delays: [Union[timedelta, datetime, int, None]] *)

(** A [datetime] by what its [tzinfo] answers when the subtraction asks
    it for [utcoffset()]: nothing or [None] (naive), an offset (aware), an
    offset out of range (the way [aware - aware] raises [ValueError]),
    something that is not a [timedelta], or an exception of its own. *)
Inductive tzinfo : Type :=
  | Naive
  | Aware
  | AwareBadOffset
  | AwareOffsetNotTimedelta
  | AwareOffsetRaises (e : exn).

(** Seconds are integers; an aware [datetime] is its UTC instant.  A
    number is an [int] of any size; the seconds of a [timedelta] are
    within what a [timedelta] holds. *)
Inductive delay : Type :=
  | Timedelta (secs : Z)
  | Datetime (tz : tzinfo) (t : Z)
  | Num (n : Z)
  | NoDelay.

(** [datetime.now(tz=timezone.utc) - d]. *)
Definition utcnow_aware_sub (now : Z) (tz : tzinfo) (t : Z) : res Z :=
  match tz with
  | Aware => Ok (now - t)
  | Naive => Raise TypeError
  | AwareBadOffset => Raise ValueError
  | AwareOffsetNotTimedelta => Raise TypeError
  | AwareOffsetRaises e => Raise e
  end.

(** [datetime.utcnow - d]: the bound method itself, not its result, is the
    left operand; [-] is not defined on it. *)
Definition utcnow_method_sub (now : Z) (tz : tzinfo) (t : Z) : res Z :=
  Raise TypeError.

(** [try: a  except ValueError: b]. *)
Definition try_except_ValueError {A} (a b : res A) : res A :=
  match a with
  | Raise ValueError => b
  | _ => a
  end.

(** [self.timeout]: [None] while [__init__] has not assigned it. *)
Definition getattr_timeout (self_timeout : option Z) : res Z :=
  match self_timeout with
  | Some n => Ok n
  | None => Raise AttributeError
  end.

(** [TimedCache._convert_delay]. *)
Definition _convert_delay (self_timeout : option Z) (now : Z) (d : delay)
  : res Z :=
  match d with
  | Timedelta secs => Ok secs
  | Datetime tz t =>
      try_except_ValueError (utcnow_aware_sub now tz t)
                            (utcnow_method_sub now tz t)
  | Num n => if n =? 0 then getattr_timeout self_timeout else Ok n
  | NoDelay => getattr_timeout self_timeout
  end.

(** ** Python [dict]: insertion-ordered, one binding per key *)

Section PyDict.
Context {K V : Type} `{EqDecision K}.

Fixpoint dict_get (k : K) (d : list (K * V)) : option V :=
  match d with
  | [] => None
  | (k', v) :: d' => if decide (k' = k) then Some v else dict_get k d'
  end.

Fixpoint dict_remove (k : K) (d : list (K * V)) : list (K * V) :=
  match d with
  | [] => []
  | (k', v) :: d' =>
      if decide (k' = k) then dict_remove k d' else (k', v) :: dict_remove k d'
  end.

(** [d[k] = v]: a present key keeps its position, a new one goes last. *)
Fixpoint dict_set (k : K) (v : V) (d : list (K * V)) : list (K * V) :=
  match d with
  | [] => [(k, v)]
  | (k', v') :: d' =>
      if decide (k' = k) then (k, v) :: d' else (k', v') :: dict_set k v d'
  end.

Definition dict_keys (d : list (K * V)) : list K := d.*1.
End PyDict.

(** ** The object and the event loop *)

(** A task of the loop: [Pending] while it has a step to run, created or
    sleeping; [Cancelled] from the moment [cancel()] has been called on it
    while pending (asyncio marks it done at the next cycle of the loop and
    never runs its body again); [Finished] and [Failed] when its body has
    returned or raised. *)
Inductive tstate : Type :=
  | Pending
  | Cancelled
  | Finished
  | Failed (e : exn).

(** The largest [float], and the least [int] that cannot be converted to
    one ([OverflowError: int too large to convert to float]). *)
Definition float_max : Z := 2 ^ 1024 - 2 ^ 971.
Definition float_limit : Z := 2 ^ 1024 - 2 ^ 970.
Arguments float_max : simpl never.
Arguments float_limit : simpl never.

(** [loop.time() + delay] raises [OverflowError]. *)
Definition overflows (delay : Z) : bool := float_limit <=? delay.

(** Time passes: [loop.time()] is a [float] and never runs backwards. *)
Definition advance (clock dt : Z) : Z :=
  Z.max clock (Z.min float_max (clock + Z.max 0 dt)).
Arguments advance : simpl never.

Section TimedCache.
Context {K : Type} `{EqDecision K}.

(** A task created from the coroutine [_timed_del(key, timeout)]:
    [t_timeout] is the argument, [t_delay] what it hands to
    [asyncio.sleep] ([timeout or self.timeout]), [t_created] the clock
    when it was created. *)
Record task : Type := Task {
  t_key : K;
  t_timeout : Z;
  t_delay : Z;
  t_created : Z;
  t_state : tstate
}.

(** [self.timeout], [self.storage] (key to [(value, task)]), the tasks of
    [self.loop] (a handle is a position in the list) and the clock. *)
Record cache : Type := Cache {
  timeout : Z;
  storage : list (K * (pyval * nat));
  tasks : list task;
  clock : Z
}.

Definition with_storage (st : list (K * (pyval * nat))) (s : cache) : cache :=
  Cache (timeout s) st (tasks s) (clock s).
Definition with_tasks (ts : list task) (s : cache) : cache :=
  Cache (timeout s) (storage s) ts (clock s).
Definition with_state (x : tstate) (t : task) : task :=
  Task (t_key t) (t_timeout t) (t_delay t) (t_created t) x.

(** *** Methods run in a state-and-exception monad: an exception leaves
    the mutations made before it in place. *)
Definition M (A : Type) : Type := cache -> res A * cache.

Definition ret {A} (a : A) : M A := fun s => (Ok a, s).
Definition bind {A B} (m : M A) (f : A -> M B) : M B :=
  fun s => match m s with
           | (Ok a, s') => f a s'
           | (Raise e, s') => (Raise e, s')
           end.

Notation "x <- m ;; k" := (bind m (fun x => k))
  (at level 100, m at next level, right associativity).
Notation "m ;;; k" := (bind m (fun _ => k))
  (at level 100, right associativity).

(** [self.storage.pop(key, None)] *)
Definition storage_pop_default (key : K) : M (option (pyval * nat)) :=
  fun s => (Ok (dict_get key (storage s)),
            with_storage (dict_remove key (storage s)) s).

(** [self.storage.pop(key)] *)
Definition storage_pop (key : K) : M (pyval * nat) :=
  fun s => match dict_get key (storage s) with
           | Some e => (Ok e, with_storage (dict_remove key (storage s)) s)
           | None => (Raise KeyError, s)
           end.

(** [self.storage[key]] *)
Definition storage_getitem (key : K) : M (pyval * nat) :=
  fun s => match dict_get key (storage s) with
           | Some e => (Ok e, s)
           | None => (Raise KeyError, s)
           end.

(** [self.storage[key] = e] *)
Definition storage_setitem (key : K) (e : pyval * nat) : M unit :=
  fun s => (Ok tt, with_storage (dict_set key e (storage s)) s).

(** [del self.storage[key]] *)
Definition storage_delitem (key : K) : M unit :=
  fun s => match dict_get key (storage s) with
           | Some _ => (Ok tt, with_storage (dict_remove key (storage s)) s)
           | None => (Raise KeyError, s)
           end.

(** [Task.cancel()]: a task that is done (finished, failed or already
    cancelled) is left as it is; a pending one gets [CancelledError] at its
    next step, whether its sleep has elapsed or not, and its body does not
    run.  From the call on it is [Cancelled] here: asyncio reports it as
    done only after the next cycle of the loop. *)
Definition cancel (t : task) : task :=
  match t_state t with
  | Pending => with_state Cancelled t
  | _ => t
  end.

Definition task_cancel (h : nat) : M unit :=
  fun s => (Ok tt, with_tasks (alter cancel h (tasks s)) s).

(** [self._convert_delay(d)] on a constructed object. *)
Definition convert_delay (d : delay) : M Z :=
  fun s => (_convert_delay (Some (timeout s)) (clock s) d, s).

(** [self.loop.create_task(self._timed_del(key, timeout=d))], on a loop
    that is open.  The new task is pending: the loop has not run it yet.
    Its coroutine first evaluates [timeout or self.timeout] and sleeps that
    long ([fire] is its first step and its wake-up); [self.timeout] is only
    assigned by [__init__]. *)
Definition create_task (key : K) (d : Z) : M nat :=
  fun s =>
    let t := Task key d (if d =? 0 then timeout s else d) (clock s) Pending in
    (Ok (length (tasks s)), with_tasks (tasks s ++ [t]) s).

(** [old_val[1].cancel()] under [if old_val := ...]: the popped tuple is
    truthy, [None] is not. *)
Definition cancel_old (old : option (pyval * nat)) : M unit :=
  match old with
  | Some (_, h) => task_cancel h
  | None => ret tt
  end.

(** [TimedCache.__setitem__] *)
Definition __setitem__ (key : K) (value : pyval) (tmo : delay) : M unit :=
  old <- storage_pop_default key ;;
  cancel_old old ;;;
  d <- convert_delay tmo ;;
  h <- create_task key d ;;
  storage_setitem key (value, h).

(** [TimedCache.__delitem__] *)
Definition __delitem__ (key : K) : M unit :=
  e <- storage_getitem key ;;
  task_cancel (snd e) ;;;
  storage_delitem key.

(** [self.storage.get(key, default)]: the stored tuple or the default. *)
Definition storage_get (key : K) (default : pyval) (s : cache) : pyval :=
  match dict_get key (storage s) with
  | Some (v, h) => PyTuple [v; PyTask h]
  | None => default
  end.

(** [TimedCache.get] *)
Definition get (key : K) (default : pyval) (s : cache) : res pyval :=
  let value := storage_get key default s in
  if truthy value then subscript0 value else Ok default.

(** [TimedCache.set] *)
Definition set (key : K) (value : pyval) (tmo : delay) : M pyval :=
  d <- convert_delay tmo ;;
  __setitem__ key value (Num d) ;;;
  ret value.

(** [TimedCache.__getitem__] *)
Definition __getitem__ (key : K) (s : cache) : res pyval :=
  match dict_get key (storage s) with
  | Some (v, _) => Ok v
  | None => Raise KeyError
  end.

(** [TimedCache.__len__] *)
Definition __len__ (s : cache) : nat := length (storage s).

(** [TimedCache.__init__]: [self.timeout] is read by [_convert_delay]
    before it is assigned.  [self.loop] is the list of tasks, empty at
    first: the environment has an event loop for [get_event_loop()] to
    return. *)
Definition __init__ (tmo : delay) (now : Z) : res cache :=
  match _convert_delay None now tmo with
  | Ok n => Ok (Cache n [] [] now)
  | Raise e => Raise e
  end.

(** *** Iteration.  [{k: v[0] for k, v in self.storage.items()}] is a new
    dict; a dict iterator yields its keys, and raises once the dict it
    walks has changed size. *)
Definition snapshot (s : cache) : list (K * pyval) :=
  map (fun kv => (kv.1, kv.2.1)) (storage s).

Record dict_iter : Type := DictIter {
  it_dict : list (K * pyval);
  it_len : nat;
  it_pos : nat
}.

Definition __iter__ (s : cache) : dict_iter :=
  DictIter (snapshot s) (length (snapshot s)) 0.

(** [next(it)]: [None] is [StopIteration]. *)
Definition next (it : dict_iter) : res (option K) * dict_iter :=
  if negb (length (it_dict it) =? it_len it)%nat then (Raise RuntimeError, it)
  else match dict_keys (it_dict it) !! it_pos it with
       | Some k => (Ok (Some k), DictIter (it_dict it) (it_len it) (S (it_pos it)))
       | None => (Ok None, it)
       end.

(** *** The event loop.  [fire h] is the loop giving task [h] a step.
    The first step of the coroutine calls [asyncio.sleep], which asks the
    loop for a timer at [loop.time() + delay]: a positive [int] beyond the
    range of [float] makes this raise [OverflowError], the task ends with
    it and the entry stays in the storage.  Otherwise the task sleeps;
    when its sleep has elapsed the loop resumes the coroutine, which runs
    [self.storage.pop(key)]; an exception ends the task and stays in it.
    Nothing is delivered to a task that is done, cancelled or still
    sleeping.  The sleep is counted from the clock of the write; the loop
    runs the first step no earlier, so the task wakes up no earlier than
    counted here. *)
Definition _timed_del_resume (key : K) : M unit :=
  storage_pop key ;;; ret tt.

Definition due (s : cache) (t : task) : bool :=
  t_created t + t_delay t <=? clock s.

Definition is_pending (t : task) : bool :=
  match t_state t with Pending => true | _ => false end.

Definition finish (r : res unit) (t : task) : task :=
  with_state (match r with Ok _ => Finished | Raise e => Failed e end) t.

Definition fire (h : nat) (s : cache) : cache :=
  match tasks s !! h with
  | Some t =>
      if is_pending t then
        if overflows (t_delay t) then
          with_tasks (alter (finish (Raise OverflowError)) h (tasks s)) s
        else if due s t then
          let (r, s') := _timed_del_resume (t_key t) s in
          with_tasks (alter (finish r) h (tasks s')) s'
        else s
      else s
  | None => s
  end.

(** What can happen to a constructed object. *)
Inductive event : Type :=
  | ESetItem (key : K) (value : pyval) (tmo : delay)
  | ESet (key : K) (value : pyval) (tmo : delay)
  | EDelItem (key : K)
  | EFire (h : nat)
  | ETick (dt : Z).

Definition exec (e : event) (s : cache) : cache :=
  match e with
  | ESetItem k v tmo => (__setitem__ k v tmo s).2
  | ESet k v tmo => (set k v tmo s).2
  | EDelItem k => (__delitem__ k s).2
  | EFire h => fire h s
  | ETick dt => Cache (timeout s) (storage s) (tasks s) (advance (clock s) dt)
  end.

Definition run (es : list event) (s : cache) : cache :=
  foldl (fun s e => exec e s) s es.

(** The states of an object constructed at a clock a [float] can hold. *)
Inductive reachable : cache -> Prop :=
  | reachable_init tmo now s :
      0 <= now <= float_max ->
      __init__ tmo now = Ok s -> reachable s
  | reachable_exec e s :
      reachable s -> reachable (exec e s).

(** *** The two halves of [__setitem__], around [_convert_delay]: the
    old entry is popped and its task cancelled; the new task is created
    and the new entry stored. *)
Definition evict (key : K) : M unit :=
  old <- storage_pop_default key ;;
  cancel_old old.

Definition install (key : K) (value : pyval) (d : Z) : M unit :=
  h <- create_task key d ;;
  storage_setitem key (value, h).

(** *** Vocabulary of the statements *)

(** [timeout or self.timeout], the delay [_timed_del] sleeps. *)
Definition effective (s : cache) (d : Z) : Z :=
  if d =? 0 then timeout s else d.

Definition deadline (t : task) : Z := t_created t + t_delay t.

(** The entry under [k] carries handle [h]. *)
Definition owns (s : cache) (k : K) (h : nat) : Prop :=
  exists v, dict_get k (storage s) = Some (v, h).

(** [h] is a pending timer for key [k]. *)
Definition live (s : cache) (h : nat) (k : K) : Prop :=
  exists t, tasks s !! h = Some t /\ t_key t = k /\ t_state t = Pending.

(** [h] is a task of the loop that is not pending: it will not run. *)
Definition dead (s : cache) (h : nat) : Prop :=
  exists t, tasks s !! h = Some t /\ t_state t <> Pending.

Definition failed (s : cache) (h : nat) : Prop :=
  exists t e, tasks s !! h = Some t /\ t_state t = Failed e.

(** Every entry has its own task, pending or ended by [OverflowError] at
    its first step; every pending task has its entry; no task has ended
    with any other exception. *)
Record inv (s : cache) : Prop := Inv {
  inv_entry : forall k h, owns s k h ->
                exists t, tasks s !! h = Some t /\ t_key t = k
                  /\ (t_state t = Pending
                      \/ (t_state t = Failed OverflowError
                          /\ overflows (t_delay t) = true));
  inv_timer : forall h k, live s h k -> owns s k h;
  inv_keys : NoDup (dict_keys (storage s));
  inv_delay : forall h t, tasks s !! h = Some t ->
                t_delay t = effective s (t_timeout t);
  inv_fail : forall h t e, tasks s !! h = Some t -> t_state t = Failed e ->
               e = OverflowError /\ overflows (t_delay t) = true;
  inv_clock : 0 <= clock s <= float_max;
  inv_created : forall h t, tasks s !! h = Some t -> 0 <= t_created t
}.

(** An event that neither writes or deletes key [k] nor fires timer [h]. *)
Definition leaves (k : K) (h : nat) (e : event) : Prop :=
  match e with
  | ESetItem k' _ _ | ESet k' _ _ | EDelItem k' => k' <> k
  | EFire h' => h' <> h
  | ETick _ => True
  end.

(** *** Consuming an iterator *)

(** [list(it)], with fuel. *)
Fixpoint drain (fuel : nat) (it : dict_iter) : option (res (list K)) :=
  match fuel with
  | O => None
  | S n =>
      match next it with
      | (Raise e, _) => Some (Raise e)
      | (Ok None, _) => Some (Ok [])
      | (Ok (Some k), it') =>
          match drain n it' with
          | Some (Ok ks) => Some (Ok (k :: ks))
          | r => r
          end
      end
  end.

(** [for k in it: body], where the body of the i-th round is the i-th
    list of events, run on the cache after [next] returned. *)
Fixpoint drain_mutating (body : list (list event)) (it : dict_iter)
    (s : cache) : option (res (list K) * cache) :=
  match body with
  | [] => None
  | es :: rest =>
      match next it with
      | (Raise e, _) => Some (Raise e, s)
      | (Ok None, _) => Some (Ok [], s)
      | (Ok (Some k), it') =>
          match drain_mutating rest it' (run es s) with
          | Some (Ok ks, s') => Some (Ok (k :: ks), s')
          | r => r
          end
      end
  end.

End TimedCache.

(** ** Sample objects *)

(** [TimedCache(timeout=600)] at clock 0. *)
Definition fresh : cache (K:=string) := Cache 600 [] [] 0.

(** [c["a"] = 0] *)
Definition zero_stored : cache (K:=string) :=
  exec (ESetItem "a" (PyInt 0) NoDelay) fresh.

(** [c["a"] = 1; c.set("a", 2, 5); c["b"] = 3; del c["b"]], then 700
    seconds pass: the timers of the first write and of ["b"] are stale and
    their sleeps have elapsed. *)
Definition rewritten : cache (K:=string) :=
  run [ESetItem "a" (PyInt 1) NoDelay; ESet "a" (PyInt 2) (Num 5);
       ESetItem "b" (PyInt 3) NoDelay; EDelItem "b"; ETick 700] fresh.

(** [c["a"] = 1] against [c["a"] = 2] *)
Definition holds_one : cache (K:=string) :=
  exec (ESetItem "a" (PyInt 1) NoDelay) fresh.
Definition holds_two : cache (K:=string) :=
  exec (ESetItem "a" (PyInt 2) NoDelay) fresh.

(** ** Further vocabulary *)

Section Accounting.
Context {K : Type} `{EqDecision K}.

(** The number of timers of the loop that are live: not done, and not
    cancelled by a call of [cancel()]. *)
Definition pending_timers (s : cache (K:=K)) : nat :=
  length (List.filter is_pending (tasks s)).

(** An event that neither writes nor deletes key [k]; any timer may fire
    and time may pass. *)
Definition spares (k : K) (e : event (K:=K)) : Prop :=
  match e with
  | ESetItem k' _ _ | ESet k' _ _ | EDelItem k' => k' <> k
  | EFire _ | ETick _ => True
  end.

End Accounting.

(** ** More sample objects *)

(** [c.set("a", 1, 10**400)], and the loop has run the first step of the
    new task. *)
Definition overflowed : cache (K:=string) :=
  run [ESet "a" (PyInt 1) (Num (10 ^ 400)); EFire 0] fresh.

(** [c["a"] = 1; c["b"] = 2], then 100 seconds pass. *)
Definition two_keys : cache (K:=string) :=
  run [ESetItem "a" (PyInt 1) NoDelay; ESetItem "b" (PyInt 2) (Num 500);
       ETick 100] fresh.

(** * NestedNamespace: a dictionary turned into an object with the same
      attributes *)

(** The data a caller passes in: what [json.loads] returns.  Keys of
    dictionaries are strings. *)
#[warnings="-register-all"]
Inductive json : Type :=
  | JNull
  | JBool (b : bool)
  | JNum (z : Z)
  | JStr (s : string)
  | JList (items : list json)
  | JDict (d : list (string * json)).

(** What an attribute holds afterwards: the value as it was passed, or a
    [NestedNamespace], given by its [__dict__]. *)
#[warnings="-register-all"]
Inductive nsval : Type :=
  | Raw (j : json)
  | Namespace (a : list (string * nsval)).

(** What [MappingProxyType] wraps: a dictionary, or a string, which it
    takes for a mapping too. *)
Inductive proxy : Type :=
  | ProxyDict (d : list (string * json))
  | ProxyStr (x : string).

Module NestedNamespace.
Section WithStr.

(** The builtin [str] on the values passed in. *)
Variable py_str : json -> string.

(** [self.__attrs] inside the class body is this attribute. *)
Definition mangled : string := "_NestedNamespace__attrs".

(** Calling a function whose first parameter is [self] with [**d]: the
    keyword ["self"] collides with the receiver. *)
Definition has_self {V : Type} (d : list (string * V)) : bool :=
  existsb (String.eqb "self") (dict_keys d).

(** [SimpleNamespace.__init__(self, **kwargs)]: [__dict__.update(kwargs)]. *)
Definition update (a kwargs : list (string * nsval)) : list (string * nsval) :=
  foldl (fun acc kv => dict_set kv.1 kv.2 acc) a kwargs.

(** [setattr(ns, name, v)]: [__class__] takes only classes, [__dict__] and
    [__weakref__] are read-only; any other name goes to [__dict__]. *)
Definition setattr (a : list (string * nsval)) (name : string) (v : nsval)
  : res (list (string * nsval)) :=
  if String.eqb name "__class__" then Raise TypeError
  else if String.eqb name "__dict__" || String.eqb name "__weakref__"
       then Raise AttributeError
  else Ok (dict_set name v a).

(** [self.__class__( **{str(_k): str(_v)})], the object built from the
    first dictionary of a list: one attribute, a string. *)
Definition first_item (_k : string) (_v : json) : list (string * nsval) :=
  update [(mangled, Raw (JDict [(_k, JStr (py_str _v))]))]
         [(_k, Raw (JStr (py_str _v)))].

(** [for item in value: ...] of [_prepare_].  [cur] is [attrs[key]] once
    it has been replaced by an object, [None] while [counter == 1]. *)
Fixpoint list_loop (items : list json) (cur : option (list (string * nsval)))
  : res (option (list (string * nsval))) :=
  match items with
  | [] => Ok cur
  | JDict item :: rest =>
      match item with
      | [] => Raise IndexError
      | (_k, _v) :: _ =>
          match cur with
          | None =>
              if String.eqb _k "self" then Raise TypeError
              else list_loop rest (Some (first_item _k _v))
          | Some a =>
              match setattr a _k (Raw _v) with
              | Ok a' => list_loop rest (Some a')
              | Raise e => Raise e
              end
          end
      end
  | _ :: rest => list_loop rest cur
  end.

(** What [_prepare_] leaves in [attrs[key]] for a value: a dictionary
    becomes [self.__class__( **value)], a list goes through [list_loop],
    anything else stays.  The recursion limit of the interpreter is not
    part of this: on dictionaries nested deeper than its stack allows the
    code raises [RecursionError]. *)
Fixpoint prepared (value : json) : res nsval :=
  match value with
  | JDict d =>
      if has_self d then Raise TypeError
      else
        match (fix loop (attrs : list (string * json))
                 : res (list (string * nsval)) :=
                 match attrs with
                 | [] => Ok []
                 | (key, v) :: rest =>
                     match prepared v with
                     | Ok v' =>
                         match loop rest with
                         | Ok rest' => Ok ((key, v') :: rest')
                         | Raise e => Raise e
                         end
                     | Raise e => Raise e
                     end
                 end) d with
        | Ok new_attrs =>
            Ok (Namespace (update [(mangled, Raw (JDict d))] new_attrs))
        | Raise e => Raise e
        end
  | JList items =>
      match list_loop items None with
      | Ok None => Ok (Raw value)
      | Ok (Some a) => Ok (Namespace a)
      | Raise e => Raise e
      end
  | _ => Ok (Raw value)
  end.

(** [NestedNamespace._prepare_]: the values are replaced key by key, in
    order; the first exception ends the loop. *)
Fixpoint _prepare_ (attrs : list (string * json))
  : res (list (string * nsval)) :=
  match attrs with
  | [] => Ok []
  | (key, v) :: rest =>
      match prepared v with
      | Ok v' =>
          match _prepare_ rest with
          | Ok rest' => Ok ((key, v') :: rest')
          | Raise e => Raise e
          end
      | Raise e => Raise e
      end
  end.

(** [NestedNamespace.__init__]: the [__dict__] of the new object.
    [_prepare_( **attrs)] works on its own copy of [attrs]. *)
Definition __init__ (attrs : list (string * json))
  : res (list (string * nsval)) :=
  if has_self attrs then Raise TypeError
  else match _prepare_ attrs with
       | Ok new_attrs => Ok (update [(mangled, Raw (JDict attrs))] new_attrs)
       | Raise e => Raise e
       end.

(** [obj.to_dict()].  A key [to_dict] of the input is an entry of
    [__dict__] and hides the method: the call is then a call of that
    value, and none is callable.  Otherwise [NestedNamespace.to_dict] runs:
    [MappingProxyType(self.__attrs)] wraps a dictionary or a string and
    refuses everything else. *)
Definition to_dict (a : list (string * nsval)) : res proxy :=
  match dict_get "to_dict" a with
  | Some _ => Raise TypeError
  | None =>
      match dict_get mangled a with
      | Some (Raw (JDict d)) => Ok (ProxyDict d)
      | Some (Raw (JStr x)) => Ok (ProxyStr x)
      | Some _ => Raise TypeError
      | None => Raise AttributeError
      end
  end.

End WithStr.
End NestedNamespace.

(** *** Vocabulary for the statements about NestedNamespace *)

Definition is_dict (j : json) : bool :=
  match j with JDict _ => true | _ => false end.

(** A value [_prepare_] has no case for, or a list without dictionaries. *)
Definition leaf (j : json) : bool :=
  match j with
  | JDict _ => false
  | JList items => forallb (fun i => negb (is_dict i)) items
  | _ => true
  end.

(** [j[k1][k2]...] *)
Fixpoint json_at (path : list string) (j : json) : option json :=
  match path with
  | [] => Some j
  | k :: rest =>
      match j with
      | JDict d =>
          match dict_get k d with
          | Some j' => json_at rest j'
          | None => None
          end
      | _ => None
      end
  end.

(** The names the type answers itself, whatever [__dict__] holds: its
    data descriptors. *)
Definition data_descriptor (name : string) : bool :=
  String.eqb name "__class__" || String.eqb name "__dict__"
  || String.eqb name "__weakref__".

(** [obj.name] where [__dict__] answers: [None] for a data descriptor of
    the type and for a name that is not in [__dict__]. *)
Definition getattr_own (a : list (string * nsval)) (name : string)
  : option nsval :=
  if data_descriptor name then None else dict_get name a.

(** [ns.k1.k2...], as far as [__dict__] answers. *)
Fixpoint ns_at (path : list string) (v : nsval) : option nsval :=
  match path with
  | [] => Some v
  | k :: rest =>
      match v with
      | Namespace a =>
          match getattr_own a k with
          | Some v' => ns_at rest v'
          | None => None
          end
      | Raw _ => None
      end
  end.

(** The dictionaries met along a path are Python dictionaries: no key
    twice. *)
Fixpoint unique_along (path : list string) (j : json) : Prop :=
  match path, j with
  | k :: rest, JDict d =>
      NoDup (dict_keys d)
      /\ match dict_get k d with
         | Some j' => unique_along rest j'
         | None => True
         end
  | _, _ => True
  end.

(** What [list_loop] reads of a list: of every dictionary in it the first
    pair, [None] for an empty one. *)
Definition dict_heads (items : list json) : list (option (string * json)) :=
  flat_map (fun j => match j with
                     | JDict [] => [None]
                     | JDict (p :: _) => [Some p]
                     | _ => []
                     end) items.

(** A list with every dictionary cut down to its first pair and
    everything else taken out. *)
Definition trimmed (items : list json) : list json :=
  map (fun h => JDict (match h with Some p => [p] | None => [] end))
      (dict_heads items).

(** [str] on the samples. *)
Definition sample_str (j : json) : string :=
  match j with
  | JNum 1 => "1"
  | JStr s => s
  | _ => "?"
  end.

(** [{"user": {"name": "bob", "tags": ["x"]}, "n": 1}] *)
Definition sample_json : list (string * json) :=
  [("user", JDict [("name", JStr "bob"); ("tags", JList [JStr "x"])]);
   ("n", JNum 1)].

(** [[{"a": 1, "b": 2}, 7, {"c": [3]}]] *)
Definition sample_list : list json :=
  [JDict [("a", JNum 1); ("b", JNum 2)]; JNum 7;
   JDict [("c", JList [JNum 3])]].

(** * Facts *)

(** ** The dictionary *)

Section PyDictFacts.
Context {K V : Type} `{EqDecision K}.
Implicit Types (d : list (K * V)) (k : K) (v : V).

Lemma dict_get_remove_eq k d : dict_get k (dict_remove k d) = None.
Proof.
  induction d as [|[k' v'] d IH]; simpl; [done|].
  destruct (decide (k' = k)) as [->|Hne]; simpl; [done|].
  by rewrite decide_False.
Qed.

Lemma dict_get_remove_ne k k' d :
  k <> k' -> dict_get k' (dict_remove k d) = dict_get k' d.
Proof.
  intros Hne. induction d as [|[k0 v0] d IH]; simpl; [done|].
  destruct (decide (k0 = k)) as [->|Hk0]; simpl.
  - by rewrite decide_False.
  - by rewrite IH.
Qed.

Lemma dict_get_set_eq k v d : dict_get k (dict_set k v d) = Some v.
Proof.
  induction d as [|[k' v'] d IH]; simpl.
  - by rewrite decide_True.
  - destruct (decide (k' = k)) as [->|Hne]; simpl.
    + by rewrite decide_True.
    + by rewrite decide_False.
Qed.

Lemma dict_get_set_ne k k' v d :
  k <> k' -> dict_get k' (dict_set k v d) = dict_get k' d.
Proof.
  intros Hne. induction d as [|[k0 v0] d IH]; simpl.
  - by rewrite decide_False.
  - destruct (decide (k0 = k)) as [->|Hk0]; simpl.
    + by rewrite !decide_False.
    + by rewrite IH.
Qed.

Lemma dict_get_None k d : dict_get k d = None <-> k ∉ dict_keys d.
Proof.
  unfold dict_keys. induction d as [|[k' v'] d IH]; simpl.
  - split; [intros _; apply not_elem_of_nil | done].
  - rewrite not_elem_of_cons. destruct (decide (k' = k)) as [->|Hne].
    + split; [done | intros [? _]; done].
    + rewrite IH. split; [intros ?; split; [congruence | done] | by intros [_ ?]].
Qed.

Lemma dict_remove_absent k d : dict_get k d = None -> dict_remove k d = d.
Proof.
  induction d as [|[k' v'] d IH]; simpl; [done|].
  destruct (decide (k' = k)); [done|]. intros Hd. by rewrite IH.
Qed.

Lemma dict_set_absent k v d :
  dict_get k d = None -> dict_set k v d = d ++ [(k, v)].
Proof.
  induction d as [|[k' v'] d IH]; simpl; [done|].
  destruct (decide (k' = k)); [done|]. intros Hd. by rewrite IH.
Qed.

Lemma dict_keys_remove k k' d :
  k' ∈ dict_keys (dict_remove k d) -> k' ∈ dict_keys d.
Proof.
  unfold dict_keys. induction d as [|[k0 v0] d IH]; simpl; [done|].
  destruct (decide (k0 = k)); simpl; rewrite ?elem_of_cons; intuition.
Qed.

Lemma dict_remove_NoDup k d :
  NoDup (dict_keys d) -> NoDup (dict_keys (dict_remove k d)).
Proof.
  unfold dict_keys. induction d as [|[k0 v0] d IH]; simpl; [done|].
  rewrite NoDup_cons. intros [Hin Hnd].
  destruct (decide (k0 = k)); simpl; [by apply IH|].
  apply NoDup_cons. split; [|by apply IH].
  intros Hin'. apply Hin. by eapply dict_keys_remove.
Qed.

Lemma dict_keys_set k v d :
  dict_keys (dict_set k v d) =
    match dict_get k d with
    | Some _ => dict_keys d
    | None => dict_keys d ++ [k]
    end.
Proof.
  unfold dict_keys. induction d as [|[k0 v0] d IH]; [done|].
  cbn [dict_set dict_get].
  destruct (decide (k0 = k)) as [->|Hne]; [done|].
  rewrite fmap_cons, IH. by destruct (dict_get k d).
Qed.

Lemma dict_set_NoDup k v d :
  NoDup (dict_keys d) -> NoDup (dict_keys (dict_set k v d)).
Proof.
  intros Hnd. rewrite dict_keys_set.
  destruct (dict_get k d) eqn:Hk; [done|].
  apply NoDup_app. split; [done|]. split; [|apply NoDup_singleton].
  intros x Hx Hx'. apply list_elem_of_singleton in Hx' as ->.
  by apply dict_get_None in Hk.
Qed.
End PyDictFacts.

(** ** The methods in closed form *)

Section TimedCacheFacts.
Context {K : Type} `{EqDecision K}.
Implicit Types (s : cache (K:=K)) (k key : K) (h : nat) (t : task (K:=K)).

Lemma evict_eq k s :
  evict k s =
    (Ok tt,
     Cache (timeout s) (dict_remove k (storage s))
           (match dict_get k (storage s) with
            | Some (_, h) => alter cancel h (tasks s)
            | None => tasks s
            end)
           (clock s)).
Proof.
  unfold evict, bind, storage_pop_default, cancel_old; simpl.
  by destruct (dict_get k (storage s)) as [[v h]|].
Qed.

Lemma install_eq k v d s :
  install k v d s =
    (Ok tt,
     Cache (timeout s) (dict_set k (v, length (tasks s)) (storage s))
           (tasks s ++ [Task k d (effective s d) (clock s) Pending])
           (clock s)).
Proof. reflexivity. Qed.

Lemma setitem_split k v tmo s :
  __setitem__ k v tmo s =
    match _convert_delay (Some (timeout s)) (clock s) tmo with
    | Ok d => install k v d (evict k s).2
    | Raise e => (Raise e, (evict k s).2)
    end.
Proof.
  rewrite evict_eq. unfold __setitem__, bind, storage_pop_default,
    cancel_old, convert_delay; simpl.
  destruct (dict_get k (storage s)) as [[v0 h0]|]; simpl;
    by destruct (_convert_delay _ _ tmo).
Qed.

Lemma set_split k v tmo s :
  set k v tmo s =
    match _convert_delay (Some (timeout s)) (clock s) tmo with
    | Ok d =>
        match __setitem__ k v (Num d) s with
        | (Ok _, s') => (Ok v, s')
        | (Raise e, s') => (Raise e, s')
        end
    | Raise e => (Raise e, s)
    end.
Proof.
  unfold set, bind, convert_delay, ret; simpl.
  destruct (_convert_delay _ _ tmo); [|done].
  by destruct (__setitem__ k v (Num a) s) as [[[]|e] s'].
Qed.

Lemma delitem_eq k s :
  __delitem__ k s =
    match dict_get k (storage s) with
    | Some (_, h) =>
        (Ok tt, Cache (timeout s) (dict_remove k (storage s))
                      (alter cancel h (tasks s)) (clock s))
    | None => (Raise KeyError, s)
    end.
Proof.
  unfold __delitem__, bind, storage_getitem, task_cancel, storage_delitem.
  destruct (dict_get k (storage s)) as [[v h]|] eqn:Hk; simpl; [|done].
  by rewrite Hk.
Qed.

Lemma delitem_evict k s v h :
  dict_get k (storage s) = Some (v, h) ->
  (__delitem__ k s).2 = (evict k s).2.
Proof. intros Hk. by rewrite delitem_eq, evict_eq, Hk. Qed.

Lemma fire_eq h s :
  fire h s =
    match tasks s !! h with
    | Some t =>
        if is_pending t then
          if overflows (t_delay t) then
            Cache (timeout s) (storage s)
                  (alter (finish (Raise OverflowError)) h (tasks s)) (clock s)
          else if due s t then
            match dict_get (t_key t) (storage s) with
            | Some _ =>
                Cache (timeout s) (dict_remove (t_key t) (storage s))
                      (alter (finish (Ok tt)) h (tasks s)) (clock s)
            | None =>
                Cache (timeout s) (storage s)
                      (alter (finish (Raise KeyError)) h (tasks s)) (clock s)
            end
          else s
        else s
    | None => s
    end.
Proof.
  unfold fire. destruct (tasks s !! h) as [t|]; [|done].
  destruct (is_pending t); [|done].
  destruct (overflows (t_delay t)); [done|].
  destruct (due s t); [|done].
  unfold _timed_del_resume, bind, storage_pop, ret.
  by destruct (dict_get (t_key t) (storage s)).
Qed.

Lemma cancel_not_pending t : t_state (cancel t) <> Pending.
Proof. unfold cancel. by destruct (t_state t) eqn:E; simpl; rewrite ?E. Qed.

Lemma cancel_done t : t_state t <> Pending -> cancel t = t.
Proof. unfold cancel. by destruct (t_state t). Qed.

Lemma is_pending_true t : is_pending t = true <-> t_state t = Pending.
Proof. unfold is_pending. by destruct (t_state t). Qed.

(** [cancel] changes the state of a task and nothing else, ends no task
    with an exception and leaves none pending. *)
Lemma cancel_with_state t :
  exists x, cancel t = with_state x t /\ x <> Pending
            /\ forall e, x = Failed e -> t_state t = Failed e.
Proof.
  destruct t as [k tm d c st]. unfold cancel, with_state; simpl.
  destruct st; eexists; (split; [reflexivity|]); split; done.
Qed.

Lemma float_max_below_limit : 0 <= float_max /\ float_max < float_limit.
Proof. by vm_compute. Qed.

(** ** The invariant *)

(** Removing the entry of [k] while its task [h] stops being pending. *)
Lemma inv_retire s k v h (f : task -> task) :
  inv s ->
  dict_get k (storage s) = Some (v, h) ->
  (forall t, exists x, f t = with_state x t /\ x <> Pending
                       /\ forall e, x = Failed e -> t_state t = Failed e) ->
  inv (Cache (timeout s) (dict_remove k (storage s))
             (alter f h (tasks s)) (clock s)).
Proof.
  intros [He Ht Hnd Hd Hfail Hclock Hcr] Hk Hf.
  destruct (He k h) as (t0 & Ht0 & Hk0 & Hst0); [by exists v|].
  destruct (Hf t0) as (x & Hx & Hxp & Hxf).
  split; simpl.
  - intros k' h' [v' Hv']; simpl in Hv'.
    destruct (decide (k = k')) as [<-|Hne];
      [by rewrite dict_get_remove_eq in Hv'|].
    rewrite dict_get_remove_ne in Hv' by done.
    destruct (He k' h') as (t' & Ht' & Hk' & Hst'); [by exists v'|].
    assert (h <> h') by (intros <-; congruence).
    exists t'. by rewrite list_lookup_alter_ne.
  - intros h' k' (t' & Ht' & Hk' & Hp'); simpl in Ht'.
    destruct (decide (h = h')) as [<-|Hne].
    { rewrite list_lookup_alter_eq, Ht0 in Ht'. simpl in Ht'.
      injection Ht' as <-. by rewrite Hx in Hp'. }
    rewrite list_lookup_alter_ne in Ht' by done.
    destruct (Ht h' k') as [v' Hv']; [by exists t'|].
    exists v'. simpl.
    rewrite dict_get_remove_ne; [done|]. intros <-. congruence.
  - by apply dict_remove_NoDup.
  - intros h' t' Ht'. unfold effective; simpl.
    destruct (decide (h = h')) as [<-|Hne].
    + rewrite list_lookup_alter_eq, Ht0 in Ht'. simpl in Ht'.
      injection Ht' as <-. rewrite Hx. simpl. by apply (Hd h).
    + rewrite list_lookup_alter_ne in Ht' by done. by apply (Hd h').
  - intros h' t' e Ht' Hst'.
    destruct (decide (h = h')) as [<-|Hne].
    + rewrite list_lookup_alter_eq, Ht0 in Ht'. simpl in Ht'.
      injection Ht' as <-. rewrite Hx in Hst' |- *. simpl in *.
      apply (Hfail h t0 e Ht0). by apply Hxf.
    + rewrite list_lookup_alter_ne in Ht' by done. by apply (Hfail h' t' e).
  - done.
  - intros h' t' Ht'.
    destruct (decide (h = h')) as [<-|Hne].
    + rewrite list_lookup_alter_eq, Ht0 in Ht'. simpl in Ht'.
      injection Ht' as <-. rewrite Hx. simpl. by apply (Hcr h).
    + rewrite list_lookup_alter_ne in Ht' by done. by apply (Hcr h').
Qed.

Lemma inv_evict k s : inv s -> inv (evict k s).2.
Proof.
  intros Hi. rewrite evict_eq; simpl.
  destruct (dict_get k (storage s)) as [[v h]|] eqn:Hk.
  - eapply inv_retire; [done..|]. apply cancel_with_state.
  - rewrite dict_remove_absent by done. by destruct s.
Qed.

Lemma evict_absent k s : dict_get k (storage (evict k s).2) = None.
Proof. rewrite evict_eq; simpl. apply dict_get_remove_eq. Qed.

Lemma inv_install k v d s :
  inv s -> dict_get k (storage s) = None -> inv (install k v d s).2.
Proof.
  intros [He Ht Hnd Hd Hfail Hclock Hcr] Hk. rewrite install_eq; simpl.
  split; simpl.
  - intros k' h' [v' Hv']; simpl in Hv'.
    destruct (decide (k = k')) as [<-|Hne].
    + rewrite dict_get_set_eq in Hv'. injection Hv' as <- <-.
      eexists. split; [by apply list_lookup_middle|]. split; [done|by left].
    + rewrite dict_get_set_ne in Hv' by done.
      destruct (He k' h') as (t' & Ht' & Hk' & Hst'); [by exists v'|].
      exists t'. split; [by apply lookup_app_l_Some|done].
  - intros h' k' (t' & Ht' & Hk' & Hp'); simpl in Ht'.
    apply lookup_snoc_Some in Ht' as [[Hlt Ht']|[-> <-]].
    + destruct (Ht h' k') as [v' Hv']; [by exists t'|].
      exists v'. simpl. rewrite dict_get_set_ne; [done|].
      intros <-. congruence.
    + simpl in Hk'. subst k'. exists v. simpl. apply dict_get_set_eq.
  - by apply dict_set_NoDup.
  - intros h' t' Ht'. unfold effective; simpl.
    apply lookup_snoc_Some in Ht' as [[Hlt Ht']|[-> <-]]; [by apply (Hd h')|done].
  - intros h' t' e Ht' Hst'.
    apply lookup_snoc_Some in Ht' as [[Hlt Ht']|[-> <-]]; [|done].
    by apply (Hfail h' t' e).
  - done.
  - intros h' t' Ht'.
    apply lookup_snoc_Some in Ht' as [[Hlt Ht']|[-> <-]];
      [by apply (Hcr h') | simpl; lia].
Qed.

Lemma inv_setitem k v tmo s : inv s -> inv (__setitem__ k v tmo s).2.
Proof.
  intros Hi. rewrite setitem_split.
  destruct (_convert_delay _ _ tmo); [|by apply inv_evict].
  apply inv_install; [by apply inv_evict | apply evict_absent].
Qed.

Lemma inv_set k v tmo s : inv s -> inv (set k v tmo s).2.
Proof.
  intros Hi. rewrite set_split.
  destruct (_convert_delay _ _ tmo) as [d|]; [|done].
  pose proof (inv_setitem k v (Num d) s Hi) as Hs.
  by destruct (__setitem__ k v (Num d) s) as [[[]|e] s'].
Qed.

Lemma inv_delitem k s : inv s -> inv (__delitem__ k s).2.
Proof.
  intros Hi. destruct (dict_get k (storage s)) as [[v h]|] eqn:Hk.
  - erewrite delitem_evict by done. by apply inv_evict.
  - by rewrite delitem_eq, Hk.
Qed.

(** The first step of a task whose delay no [float] holds. *)
Lemma inv_overflow h t s :
  inv s -> tasks s !! h = Some t -> t_state t = Pending ->
  overflows (t_delay t) = true ->
  inv (Cache (timeout s) (storage s)
             (alter (finish (Raise OverflowError)) h (tasks s)) (clock s)).
Proof.
  intros [He Ht Hnd Hd Hfail Hclock Hcr] Hh Hp Hov. split; simpl.
  - intros k' h' Ho. destruct (He k' h' Ho) as (t' & Ht' & Hk' & Hst').
    destruct (decide (h = h')) as [<-|Hne].
    + assert (t' = t) by congruence. subst t'.
      exists (finish (Raise OverflowError) t).
      rewrite list_lookup_alter_eq, Hh. split; [done|]. split; [done|].
      by right.
    + exists t'. by rewrite list_lookup_alter_ne.
  - intros h' k' (t' & Ht' & Hk' & Hp'); simpl in Ht'.
    destruct (decide (h = h')) as [<-|Hne].
    { rewrite list_lookup_alter_eq, Hh in Ht'. simpl in Ht'.
      by injection Ht' as <-. }
    rewrite list_lookup_alter_ne in Ht' by done.
    apply (Ht h' k'). by exists t'.
  - done.
  - intros h' t' Ht'. unfold effective; simpl.
    destruct (decide (h = h')) as [<-|Hne].
    + rewrite list_lookup_alter_eq, Hh in Ht'. simpl in Ht'.
      injection Ht' as <-. simpl. by apply (Hd h).
    + rewrite list_lookup_alter_ne in Ht' by done. by apply (Hd h').
  - intros h' t' e Ht' Hst'.
    destruct (decide (h = h')) as [<-|Hne].
    + rewrite list_lookup_alter_eq, Hh in Ht'. simpl in Ht'.
      injection Ht' as <-. simpl in *. by injection Hst' as <-.
    + rewrite list_lookup_alter_ne in Ht' by done. by apply (Hfail h' t' e).
  - done.
  - intros h' t' Ht'.
    destruct (decide (h = h')) as [<-|Hne].
    + rewrite list_lookup_alter_eq, Hh in Ht'. simpl in Ht'.
      injection Ht' as <-. simpl. by apply (Hcr h).
    + rewrite list_lookup_alter_ne in Ht' by done. by apply (Hcr h').
Qed.

Lemma inv_fire h s : inv s -> inv (fire h s).
Proof.
  intros Hi. rewrite fire_eq.
  destruct (tasks s !! h) as [t|] eqn:Hh; [|done].
  destruct (is_pending t) eqn:Hp; [|done]. apply is_pending_true in Hp.
  destruct (overflows (t_delay t)) eqn:Hov; [by apply (inv_overflow h t)|].
  destruct (due s t); [|done].
  destruct (inv_timer s Hi h (t_key t)) as [v Hv]; [by exists t|].
  rewrite Hv. eapply inv_retire; [done..|].
  intros t'. by exists Finished.
Qed.

Lemma inv_exec e s : inv s -> inv (exec e s).
Proof.
  intros Hi. destruct e as [k v tmo|k v tmo|k|h|dt]; simpl.
  - by apply inv_setitem.
  - by apply inv_set.
  - by apply inv_delitem.
  - by apply inv_fire.
  - destruct Hi as [He Ht Hnd Hd Hfail Hclock Hcr].
    pose proof float_max_below_limit. split; try done; simpl.
    unfold advance. lia.
Qed.

Lemma inv_init tmo now s :
  0 <= now <= float_max -> __init__ tmo now = Ok s -> inv s.
Proof.
  unfold __init__. intros Hnow. destruct (_convert_delay None now tmo); [|done].
  intros [= <-]. split; simpl.
  - by intros k h [v ?].
  - by intros h k (t & ? & _).
  - apply NoDup_nil_2.
  - by intros h t ?.
  - by intros h t e ?.
  - done.
  - by intros h t ?.
Qed.

Lemma reachable_inv s : reachable s -> inv s.
Proof.
  induction 1 as [tmo now s Hnow Hs|e s _ IH];
    [by eapply inv_init | by apply inv_exec].
Qed.

Lemma inv_run es s : inv s -> inv (run es s).
Proof.
  revert s. induction es as [|e es IH]; intros s Hi; [done|].
  apply IH. by apply inv_exec.
Qed.

Lemma reachable_run es s : reachable s -> reachable (run es s).
Proof.
  revert s. induction es as [|e es IH]; intros s Hr; [done|].
  apply IH. by constructor.
Qed.
End TimedCacheFacts.

(** ** Timers that are done, timers that are left alone *)

Section Timers.
Context {K : Type} `{EqDecision K}.
Implicit Types (s : cache (K:=K)) (k key : K) (h : nat) (t : task (K:=K)).

Lemma evict_keeps_dead k s h t :
  tasks s !! h = Some t -> t_state t <> Pending ->
  tasks (evict k s).2 !! h = Some t.
Proof.
  intros Hh Hp. rewrite evict_eq; simpl.
  destruct (dict_get k (storage s)) as [[v0 h0]|]; [|done].
  destruct (decide (h0 = h)) as [->|Hne].
  - by rewrite list_lookup_alter_eq, Hh; simpl; rewrite cancel_done.
  - by rewrite list_lookup_alter_ne.
Qed.

Lemma setitem_keeps_dead k v tmo s h t :
  tasks s !! h = Some t -> t_state t <> Pending ->
  tasks (__setitem__ k v tmo s).2 !! h = Some t.
Proof.
  intros Hh Hp. rewrite setitem_split.
  destruct (_convert_delay _ _ tmo); [|by apply evict_keeps_dead].
  rewrite install_eq; simpl. apply lookup_app_l_Some.
  by apply evict_keeps_dead.
Qed.

(** A task that is done is never touched again. *)
Lemma exec_keeps_dead e s h t :
  tasks s !! h = Some t -> t_state t <> Pending ->
  tasks (exec e s) !! h = Some t.
Proof.
  intros Hh Hp. destruct e as [k v tmo|k v tmo|k|h'|dt]; simpl; [| | | |done].
  - by apply setitem_keeps_dead.
  - rewrite set_split. destruct (_convert_delay _ _ tmo) as [d|]; [|done].
    pose proof (setitem_keeps_dead k v (Num d) s h t Hh Hp) as Hs.
    by destruct (__setitem__ k v (Num d) s) as [[[]|e] s'].
  - destruct (dict_get k (storage s)) as [[v0 h0]|] eqn:Hk.
    + erewrite delitem_evict by done. by apply evict_keeps_dead.
    + by rewrite delitem_eq, Hk.
  - rewrite fire_eq. destruct (tasks s !! h') as [t'|] eqn:Hh'; [|done].
    destruct (is_pending t') eqn:Hp'; [|done]. apply is_pending_true in Hp'.
    assert (h' <> h) by (intros ->; congruence).
    destruct (overflows (t_delay t')); simpl; [by rewrite list_lookup_alter_ne|].
    destruct (due s t'); [|done].
    destruct (dict_get (t_key t') (storage s)); simpl;
      by rewrite list_lookup_alter_ne.
Qed.

Lemma run_keeps_dead es s h t :
  tasks s !! h = Some t -> t_state t <> Pending ->
  tasks (run es s) !! h = Some t.
Proof.
  revert s. induction es as [|e es IH]; intros s Hh Hp; [done|].
  simpl. apply IH; [by apply exec_keeps_dead | done].
Qed.

(** Nothing is delivered to a task that is done. *)
Lemma fire_dead h s : dead s h -> fire h s = s.
Proof.
  intros (t & Hh & Hp). unfold fire. rewrite Hh.
  unfold is_pending. by destruct (t_state t).
Qed.

Lemma dead_never_fires es s h :
  dead s h -> dead (run es s) h /\ fire h (run es s) = run es s.
Proof.
  intros (t & Hh & Hp).
  assert (dead (run es s) h) by (exists t; split; [by apply run_keeps_dead|done]).
  split; [done | by apply fire_dead].
Qed.

(** The handle of a cancelled entry is dead once [evict] has run. *)
Lemma evict_kills k v h s :
  inv s -> dict_get k (storage s) = Some (v, h) -> dead (evict k s).2 h.
Proof.
  intros Hi Hk. destruct (inv_entry s Hi k h) as (t & Hh & _); [by exists v|].
  exists (cancel t). rewrite evict_eq, Hk; simpl.
  rewrite list_lookup_alter_eq, Hh. split; [done | apply cancel_not_pending].
Qed.

(** Two entries never share a handle. *)
Lemma inv_handle_inj s k k' v v' h :
  inv s ->
  dict_get k (storage s) = Some (v, h) ->
  dict_get k' (storage s) = Some (v', h) -> k = k'.
Proof.
  intros Hi Hk Hk'.
  destruct (inv_entry s Hi k h) as (t & Hh & <- & _); [by exists v|].
  destruct (inv_entry s Hi k' h) as (t' & Hh' & <- & _); [by exists v'|].
  congruence.
Qed.

Lemma evict_leaves k' k v h t s :
  inv s -> k' <> k ->
  dict_get k (storage s) = Some (v, h) -> tasks s !! h = Some t ->
  dict_get k (storage (evict k' s).2) = Some (v, h)
  /\ tasks (evict k' s).2 !! h = Some t.
Proof.
  intros Hi Hne Hk Hh. rewrite evict_eq; simpl.
  rewrite dict_get_remove_ne by done. split; [done|].
  destruct (dict_get k' (storage s)) as [[v0 h0]|] eqn:Hk'; [|done].
  rewrite list_lookup_alter_ne; [done|].
  intros ->. apply Hne. by eapply inv_handle_inj.
Qed.

Lemma setitem_leaves k' v' tmo k v h t s :
  inv s -> k' <> k ->
  dict_get k (storage s) = Some (v, h) -> tasks s !! h = Some t ->
  dict_get k (storage (__setitem__ k' v' tmo s).2) = Some (v, h)
  /\ tasks (__setitem__ k' v' tmo s).2 !! h = Some t.
Proof.
  intros Hi Hne Hk Hh. rewrite setitem_split.
  destruct (evict_leaves k' k v h t s Hi Hne Hk Hh) as [Hk1 Hh1].
  destruct (_convert_delay _ _ tmo); [|done].
  rewrite install_eq; simpl. rewrite dict_get_set_ne by done.
  split; [done | by apply lookup_app_l_Some].
Qed.

(** An event that leaves [k] and its timer alone leaves them as they are. *)
Lemma exec_leaves e k v h t s :
  inv s -> leaves k h e ->
  dict_get k (storage s) = Some (v, h) -> tasks s !! h = Some t ->
  dict_get k (storage (exec e s)) = Some (v, h)
  /\ tasks (exec e s) !! h = Some t.
Proof.
  intros Hi Hl Hk Hh.
  destruct e as [k' v' tmo|k' v' tmo|k'|h'|dt]; simpl in *; [| | | |done].
  - by apply setitem_leaves.
  - rewrite set_split. destruct (_convert_delay _ _ tmo) as [d|]; [|done].
    pose proof (setitem_leaves k' v' (Num d) k v h t s Hi Hl Hk Hh) as Hs.
    by destruct (__setitem__ k' v' (Num d) s) as [[[]|e] s'].
  - destruct (dict_get k' (storage s)) as [[v0 h0]|] eqn:Hk'.
    + erewrite delitem_evict by done. by apply evict_leaves.
    + by rewrite delitem_eq, Hk'.
  - rewrite fire_eq. destruct (tasks s !! h') as [t'|] eqn:Hh'; [|done].
    destruct (is_pending t') eqn:Hp'; [|done]. apply is_pending_true in Hp'.
    destruct (overflows (t_delay t')); simpl;
      [by rewrite list_lookup_alter_ne|].
    destruct (due s t'); [|done].
    destruct (inv_timer s Hi h' (t_key t')) as [v0 Hv0]; [by exists t'|].
    rewrite Hv0; simpl. rewrite list_lookup_alter_ne by done.
    split; [|done]. rewrite dict_get_remove_ne; [done|].
    intros Heq. rewrite Heq in Hv0. congruence.
Qed.

Lemma run_leaves es k v h t s :
  inv s -> Forall (leaves k h) es ->
  dict_get k (storage s) = Some (v, h) -> tasks s !! h = Some t ->
  dict_get k (storage (run es s)) = Some (v, h)
  /\ tasks (run es s) !! h = Some t.
Proof.
  revert s. induction es as [|e es IH]; intros s Hi Hl Hk Hh; [done|].
  apply Forall_cons in Hl as [Hl Hls]. simpl.
  destruct (exec_leaves e k v h t s Hi Hl Hk Hh) as [Hk1 Hh1].
  apply IH; [by apply inv_exec | done..].
Qed.

(** The body of [_timed_del] tests nothing: resumed where the key is gone
    it raises [KeyError], resumed where the key holds another entry it
    removes that entry.  Only cancellation keeps it from being resumed
    there. *)
Lemma timed_del_resume_absent k s :
  dict_get k (storage s) = None ->
  _timed_del_resume k s = (Raise KeyError, s).
Proof.
  intros Hk. unfold _timed_del_resume, bind, storage_pop. by rewrite Hk.
Qed.

Lemma timed_del_resume_present k v h s :
  dict_get k (storage s) = Some (v, h) ->
  _timed_del_resume k s
  = (Ok tt, Cache (timeout s) (dict_remove k (storage s)) (tasks s) (clock s)).
Proof.
  intros Hk. unfold _timed_del_resume, bind, storage_pop. by rewrite Hk.
Qed.

(** A due timer that still owns its entry removes it. *)
Lemma fire_due k v h t s :
  dict_get k (storage s) = Some (v, h) -> tasks s !! h = Some t ->
  t_key t = k -> t_state t = Pending -> overflows (t_delay t) = false ->
  deadline t <= clock s ->
  fire h s = Cache (timeout s) (dict_remove k (storage s))
                   (alter (finish (Ok tt)) h (tasks s)) (clock s).
Proof.
  intros Hk Hh <- Hp Hov Hd. rewrite fire_eq, Hh.
  unfold is_pending, due. rewrite Hp, Hov.
  unfold deadline in Hd. apply Z.leb_le in Hd. rewrite Hd.
  by rewrite Hk.
Qed.

(** Nothing is delivered to a timer that is still sleeping. *)
Lemma fire_early h t s :
  tasks s !! h = Some t -> overflows (t_delay t) = false ->
  clock s < deadline t -> fire h s = s.
Proof.
  intros Hh Hov Hc. rewrite fire_eq, Hh, Hov. unfold due.
  unfold deadline in Hc. rewrite (proj2 (Z.leb_gt _ _) Hc).
  by destruct (is_pending t).
Qed.

(** In a state the object can reach, a timer that is due does not
    overflow: the clock is a [float]. *)
Lemma due_in_range s h t :
  inv s -> tasks s !! h = Some t -> deadline t <= clock s ->
  overflows (t_delay t) = false.
Proof.
  intros Hi Hh Hd. unfold deadline in Hd.
  pose proof (inv_clock s Hi). pose proof (inv_created s Hi h t Hh).
  pose proof float_max_below_limit.
  unfold overflows. apply Z.leb_gt. lia.
Qed.
End Timers.

(** ** Iterators *)

Section Iteration.
Context {K : Type} `{EqDecision K}.
Implicit Types (s : cache (K:=K)) (d : list (K * pyval)).

Lemma snapshot_keys s : dict_keys (snapshot s) = dict_keys (storage s).
Proof.
  unfold snapshot, dict_keys. induction (storage s) as [|[k e] st IH]; [done|].
  simpl. by f_equal.
Qed.

Lemma next_own_dict d p :
  next (DictIter d (length d) p) =
    match dict_keys d !! p with
    | Some k => (Ok (Some k), DictIter d (length d) (S p))
    | None => (Ok None, DictIter d (length d) p)
    end.
Proof. unfold next; simpl. by rewrite Nat.eqb_refl. Qed.

Lemma drain_from d n p :
  length d = (p + n)%nat ->
  drain (S n) (DictIter d (length d) p) = Some (Ok (drop p (dict_keys d))).
Proof.
  revert p. induction n as [|n IH]; intros p Hlen.
  - simpl drain. rewrite next_own_dict.
    assert (Hge : (length (dict_keys d) <= p)%nat)
      by (unfold dict_keys; rewrite length_fmap; lia).
    rewrite (proj2 (lookup_ge_None _ _) Hge). by rewrite drop_ge.
  - change (drain (S (S n)) ?it) with
      (match next it with
       | (Raise e, _) => Some (Raise e)
       | (Ok None, _) => Some (Ok [])
       | (Ok (Some k), it') =>
           match drain (S n) it' with
           | Some (Ok ks) => Some (Ok (k :: ks))
           | r => r
           end
       end).
    rewrite next_own_dict.
    destruct (dict_keys d !! p) as [k|] eqn:Hk.
    + rewrite IH by lia. by rewrite (drop_S _ _ _ Hk).
    + apply lookup_ge_None in Hk. unfold dict_keys in Hk.
      rewrite length_fmap in Hk. lia.
Qed.

Lemma drain_mutating_from d body p s :
  (length d - p < length body)%nat ->
  exists s', drain_mutating body (DictIter d (length d) p) s
             = Some (Ok (drop p (dict_keys d)), s').
Proof.
  revert p s. induction body as [|es body IH]; intros p s Hlen.
  - simpl in Hlen. lia.
  - simpl drain_mutating. rewrite next_own_dict.
    destruct (dict_keys d !! p) as [k|] eqn:Hk.
    + pose proof (lookup_lt_Some _ _ _ Hk) as Hlt.
      unfold dict_keys in Hlt. rewrite length_fmap in Hlt.
      destruct (IH (S p) (run es s)) as [s' Hs']; [simpl in Hlen; lia|].
      exists s'. by rewrite Hs', (drop_S _ _ _ Hk).
    + exists s. apply lookup_ge_None in Hk. by rewrite drop_ge.
Qed.
End Iteration.

(** * The specification, claim by claim *)

Section Claims.
Context {K : Type} `{EqDecision K}.
Implicit Types (s : cache (K:=K)) (k key : K) (h : nat) (t : task (K:=K)).

(** C1 (amended).  In every state the object can reach, a key that is
    present has a task of its own, which sleeps the effective timeout and
    is pending, unless its delay is beyond the range of [float] and its
    first step has ended it with [OverflowError]; no pending timer but
    this one is for the key.  When the delay is within the range the
    timer is pending, and as long as nothing writes or deletes the key
    and the loop does not run the timer, entry and timer stay as they
    are; running the timer before its deadline (the clock of the write
    plus the effective timeout) changes nothing, running it from the
    deadline on removes the key.  A write that succeeds is [install] run
    on the state [evict] left: there the key is absent and the handle of
    an overwritten entry is already cancelled, so that it never fires
    afterwards; the new timer is pending, was created at the clock of the
    write and sleeps the effective timeout of the write. *)
Theorem one_live_timer_per_key s :
  reachable s ->
  (forall k v h, dict_get k (storage s) = Some (v, h) ->
     exists t, tasks s !! h = Some t /\ t_key t = k
       /\ t_delay t = effective s (t_timeout t)
       /\ (t_state t = Pending
           \/ (t_state t = Failed OverflowError
               /\ overflows (t_delay t) = true))
       /\ (forall h', live s h' k -> h' = h)
       /\ (overflows (t_delay t) = false ->
           t_state t = Pending
           /\ forall es, Forall (leaves k h) es ->
                dict_get k (storage (run es s)) = Some (v, h)
                /\ tasks (run es s) !! h = Some t
                /\ (clock (run es s) < deadline t ->
                    fire h (run es s) = run es s)
                /\ (deadline t <= clock (run es s) ->
                    dict_get k (storage (fire h (run es s))) = None)))
  /\ (forall k v tmo d,
        _convert_delay (Some (timeout s)) (clock s) tmo = Ok d ->
        __setitem__ k v tmo s = install k v d (evict k s).2
        /\ (set k v tmo s).2 = (__setitem__ k v (Num d) s).2
        /\ dict_get k (storage (evict k s).2) = None
        /\ (forall v0 h0, dict_get k (storage s) = Some (v0, h0) ->
              dead (evict k s).2 h0
              /\ forall es, fire h0 (run es (__setitem__ k v tmo s).2)
                            = run es (__setitem__ k v tmo s).2)
        /\ exists h t,
             dict_get k (storage (__setitem__ k v tmo s).2) = Some (v, h)
             /\ tasks (__setitem__ k v tmo s).2 !! h = Some t
             /\ t_state t = Pending /\ t_created t = clock s
             /\ t_delay t = effective s d).
Proof.
  intros Hr. pose proof (reachable_inv s Hr) as Hi. split.
  - intros k v h Hk.
    destruct (inv_entry s Hi k h) as (t & Hh & Hkey & Hst); [by exists v|].
    exists t. do 2 (split; [done|]).
    split; [by apply (inv_delay s Hi h)|]. split; [done|]. split.
    { intros h' Hl. destruct (inv_timer s Hi h' k Hl) as [v' Hv']. congruence. }
    intros Hov.
    assert (Hp : t_state t = Pending)
      by (destruct Hst as [?|[_ ?]]; [done | congruence]).
    split; [done|]. intros es Hes.
    destruct (run_leaves es k v h t s Hi Hes Hk Hh) as [Hk' Hh'].
    do 2 (split; [done|]). split.
    + intros Hearly. by apply (fire_early h t).
    + intros Hd. rewrite (fire_due k v h t (run es s)) by done. simpl.
      apply dict_get_remove_eq.
  - intros k v tmo d Hc.
    assert (Hsplit : __setitem__ k v tmo s = install k v d (evict k s).2)
      by (by rewrite setitem_split, Hc).
    split; [done|]. split.
    { rewrite set_split, Hc.
      by destruct (__setitem__ k v (Num d) s) as [[[]|e] s']. }
    split; [apply evict_absent|]. split.
    + intros v0 h0 Hk0.
      pose proof (evict_kills k v0 h0 s Hi Hk0) as Hdead.
      split; [done|]. intros es. apply dead_never_fires.
      destruct Hdead as (t0 & Hh0 & Hp0). exists t0. split; [|done].
      rewrite Hsplit, install_eq; simpl. by apply lookup_app_l_Some.
    + rewrite Hsplit, install_eq; simpl. rewrite evict_eq; simpl.
      eexists _, _. split; [apply dict_get_set_eq|].
      split; [by apply list_lookup_middle|]. done.
Qed.

(** C2.  In every state the object can reach, for every timer the loop
    holds: if the entry under its key is not its own any more (the key
    was deleted or overwritten since it was scheduled), giving it a step
    changes nothing; whenever a step changes the storage, the entry
    under the key was the timer's own and exactly that entry is removed;
    and the removal never raises: a task that has ended with an
    exception has ended with the [OverflowError] of a first step whose
    delay no [float] holds. *)
Theorem stale_fire_is_noop s h t :
  reachable s ->
  tasks s !! h = Some t ->
  (~ owns s (t_key t) h -> fire h s = s)
  /\ (storage (fire h s) <> storage s ->
      owns s (t_key t) h
      /\ storage (fire h s) = dict_remove (t_key t) (storage s))
  /\ (forall h' t' e,
        tasks (fire h s) !! h' = Some t' -> t_state t' = Failed e ->
        e = OverflowError /\ overflows (t_delay t') = true).
Proof.
  intros Hr Hh. pose proof (reachable_inv s Hr) as Hi.
  split; [|split].
  - intros Hno. apply fire_dead. exists t. split; [done|].
    intros Hp. apply Hno. apply (inv_timer s Hi). by exists t.
  - rewrite fire_eq, Hh.
    destruct (is_pending t) eqn:Hp; [|done]. apply is_pending_true in Hp.
    destruct (overflows (t_delay t)); [done|].
    destruct (due s t); [|done].
    destruct (inv_timer s Hi h (t_key t)) as [v Hv]; [by exists t|].
    rewrite Hv; simpl. intros _. split; [by exists v | done].
  - apply inv_fail. by apply inv_fire.
Qed.

(** C4 (amended).  [__init__] checks no sign: whenever the timeout
    normalizes to a number, negative or not, construction succeeds and
    that number is the default timeout of the empty map. *)
Theorem construction_checks_no_sign (tmo : delay) (now n : Z) :
  _convert_delay None now tmo = Ok n ->
  __init__ (K:=K) tmo now = Ok (Cache n [] [] now).
Proof. intros Hc. unfold __init__. by rewrite Hc. Qed.

(** C7.  [del c[key]] on an absent key raises [KeyError] and leaves the
    object as it was.  On a present key it is the removal run on the
    state the cancellation left, in which the key is still stored and
    its timer is already dead; it returns, the key is gone, and whatever
    happens afterwards the timer stays dead and delivering its wake-up
    changes nothing. *)
Theorem delete_cancels_then_removes s k :
  reachable s ->
  (dict_get k (storage s) = None -> __delitem__ k s = (Raise KeyError, s))
  /\ (forall v h, dict_get k (storage s) = Some (v, h) ->
        __delitem__ k s = storage_delitem k (task_cancel h s).2
        /\ dict_get k (storage (task_cancel h s).2) = Some (v, h)
        /\ dead (task_cancel h s).2 h
        /\ (__delitem__ k s).1 = Ok tt
        /\ dict_get k (storage (__delitem__ k s).2) = None
        /\ forall es,
             dead (run es (__delitem__ k s).2) h
             /\ fire h (run es (__delitem__ k s).2)
                = run es (__delitem__ k s).2).
Proof.
  intros Hr. pose proof (reachable_inv s Hr) as Hi. split.
  - intros Hk. by rewrite delitem_eq, Hk.
  - intros v h Hk.
    pose proof (evict_kills k v h s Hi Hk) as Hdead.
    rewrite evict_eq, Hk in Hdead; simpl in Hdead.
    rewrite delitem_eq, Hk; simpl.
    split; [unfold storage_delitem, task_cancel; simpl; by rewrite Hk|].
    do 3 (split; [done|]). split; [apply dict_get_remove_eq|].
    intros es. apply dead_never_fires.
    destruct Hdead as (t & Hh & Hp). by exists t.
Qed.

(** C8 (amended).  Iterating yields the keys of the map and nothing
    else, each key of the snapshot once and in insertion order, and
    never raises; this stays so when the map is mutated between any two
    steps of the iteration. *)
Theorem iteration_yields_snapshot_keys s :
  reachable s ->
  drain (S (length (storage s))) (__iter__ s)
    = Some (Ok (dict_keys (storage s)))
  /\ NoDup (dict_keys (storage s))
  /\ (forall k, k ∈ dict_keys (storage s)
                <-> is_Some (dict_get k (storage s)))
  /\ (forall body, (length (storage s) < length body)%nat ->
        exists s', drain_mutating body (__iter__ s) s
                   = Some (Ok (dict_keys (storage s)), s')).
Proof.
  intros Hr. pose proof (reachable_inv s Hr) as Hi.
  assert (Hlen : length (snapshot s) = length (storage s))
    by (unfold snapshot; apply length_map).
  split; [|split; [|split]].
  - unfold __iter__. rewrite <- Hlen, <- snapshot_keys.
    by rewrite (drain_from (snapshot s) (length (snapshot s)) 0).
  - apply (inv_keys s Hi).
  - intros k. split.
    + intros Hin. destruct (dict_get k (storage s)) eqn:Hk; [done|].
      by apply dict_get_None in Hk.
    + intros [e He]. destruct (decide (k ∈ dict_keys (storage s))) as [|Hn];
        [done|]. apply dict_get_None in Hn. congruence.
  - intros body Hb. unfold __iter__. rewrite <- snapshot_keys.
    destruct (drain_mutating_from (snapshot s) body 0 s) as [s' Hs'];
      [lia|]. by exists s'.
Qed.

(** C9 (amended).  Whatever value is stored under a key, falsy or not,
    [get] returns it: the truthiness test is on the stored
    [(value, task)] tuple, and a tuple of two is never falsy. *)
Theorem get_returns_stored_value s k (v : pyval) h (default : pyval) :
  dict_get k (storage s) = Some (v, h) ->
  get k default s = Ok v.
Proof. intros Hk. unfold get, storage_get. by rewrite Hk. Qed.

(** C10.  For a positive number [n], [_convert_delay] returns [n], and
    converting its result again returns the same; [set], which converts
    and then calls [__setitem__], which converts again, leaves the state
    that [__setitem__] alone leaves, and the timer installed sleeps [n]. *)
Theorem convert_delay_idempotent_on_positive (n : Z) :
  0 < n ->
  (forall st now, _convert_delay st now (Num n) = Ok n)
  /\ (forall st now d, _convert_delay st now (Num n) = Ok d ->
                       _convert_delay st now (Num d) = Ok d)
  /\ (forall s k v,
        set k v (Num n) s = (Ok v, (__setitem__ k v (Num n) s).2)
        /\ (__setitem__ k v (Num n) s).1 = Ok tt
        /\ exists h t,
             dict_get k (storage (set k v (Num n) s).2) = Some (v, h)
             /\ tasks (set k v (Num n) s).2 !! h = Some t
             /\ t_state t = Pending /\ t_delay t = n).
Proof.
  intros Hn.
  assert (Hc : forall st now, _convert_delay st now (Num n) = Ok n).
  { intros st now. simpl. by rewrite (proj2 (Z.eqb_neq n 0)) by lia. }
  split; [done|]. split.
  { intros st now d Hd. rewrite Hc in Hd. injection Hd as <-. apply Hc. }
  intros s k v.
  assert (Hs : __setitem__ k v (Num n) s = install k v n (evict k s).2)
    by (by rewrite setitem_split, Hc).
  rewrite set_split, Hc, Hs, install_eq, evict_eq; simpl.
  do 2 (split; [done|]).
  eexists _, _. split; [apply dict_get_set_eq|].
  split; [by apply list_lookup_middle|]. split; [done|]. simpl.
  unfold effective; simpl. by rewrite (proj2 (Z.eqb_neq n 0)) by lia.
Qed.

(** What [get] and [__getitem__] do on the remaining inputs. *)
Lemma get_absent_falsy_default s k (default : pyval) :
  dict_get k (storage s) = None -> truthy default = false ->
  get k default s = Ok default.
Proof. intros Hk Hd. unfold get, storage_get. by rewrite Hk, Hd. Qed.

Lemma get_absent_truthy_default s k (default : pyval) :
  dict_get k (storage s) = None -> truthy default = true ->
  get k default s = subscript0 default.
Proof. intros Hk Hd. unfold get, storage_get. by rewrite Hk, Hd. Qed.

Lemma getitem_present s k (v : pyval) h :
  dict_get k (storage s) = Some (v, h) -> __getitem__ k s = Ok v.
Proof. intros Hk. unfold __getitem__. by rewrite Hk. Qed.

Lemma getitem_KeyError s k :
  __getitem__ k s = Raise KeyError <-> dict_get k (storage s) = None.
Proof.
  unfold __getitem__. by destruct (dict_get k (storage s)) as [[v h]|].
Qed.
End Claims.

(** ** The claims on the sample objects *)

Lemma reachable_fresh : reachable fresh.
Proof.
  apply (reachable_init (Num 600) 0); [|done].
  pose proof float_max_below_limit. lia.
Qed.

Lemma reachable_rewritten : reachable rewritten.
Proof. apply reachable_run, reachable_fresh. Qed.

Lemma one_live_timer_per_key_witness :
  reachable rewritten
  /\ (exists t, tasks rewritten !! 1%nat = Some t
                /\ t_key t = "a" /\ t_state t = Pending
                /\ forall h', live rewritten h' "a" -> h' = 1%nat)
  /\ dead (evict "a" rewritten).2 1%nat.
Proof.
  pose proof reachable_rewritten as Hr. split; [exact Hr|].
  destruct (one_live_timer_per_key rewritten Hr) as [Hkey Hwrite]. split.
  - destruct (Hkey "a" (PyInt 2) 1%nat eq_refl)
      as (t & Ht & Hk & _ & _ & Hu & Hlive).
    exists t. do 2 (split; [done|]). split; [|done].
    apply Hlive. injection Ht as <-. reflexivity.
  - destruct (Hwrite "a" (PyInt 9) (Num 7) 7 eq_refl) as (_ & _ & _ & Hold & _).
    by destruct (Hold (PyInt 2) 1%nat eq_refl) as [Hd _].
Defined.

Lemma reachable_overflowed : reachable overflowed.
Proof. apply reachable_run, reachable_fresh. Qed.

(** C1 as stated fails twice.  After [c.set("a", 1, 10**400)] and the
    first step of the new task, ["a"] is in the map and its task has
    ended with [OverflowError]: no live timer is left for the key.  And
    the timer of ["a"] in the map written to at clock 0 with timeout 5 is
    still pending at clock 700, the key still there: nothing makes the
    loop run a timer within its timeout. *)
Lemma one_live_timer_counterexample :
  (reachable overflowed
   /\ dict_get "a" (storage overflowed) = Some (PyInt 1, 0%nat)
   /\ tasks overflowed
      = [Task "a" (10 ^ 400) (10 ^ 400) 0 (Failed OverflowError)]
   /\ forall h, ~ live overflowed h "a")
  /\ (reachable rewritten
      /\ dict_get "a" (storage rewritten) = Some (PyInt 2, 1%nat)
      /\ tasks rewritten !! 1%nat = Some (Task "a" 5 5 0 Pending)
      /\ clock rewritten = 700).
Proof.
  split.
  - split; [exact reachable_overflowed|]. split; [by vm_compute|].
    assert (Hts : tasks overflowed
                  = [Task "a" (10 ^ 400) (10 ^ 400) 0 (Failed OverflowError)])
      by (by vm_compute).
    split; [exact Hts|]. intros h (t & Ht & _ & Hp). rewrite Hts in Ht.
    destruct h as [|h]; [|done]. injection Ht as <-. discriminate Hp.
  - split; [exact reachable_rewritten|]. by vm_compute.
Qed.

Lemma stale_fire_is_noop_witness :
  reachable rewritten
  /\ tasks rewritten !! 0%nat = Some (Task "a" 600 600 0 Cancelled)
  /\ ~ owns rewritten "a" 0
  /\ fire 0 rewritten = rewritten.
Proof.
  pose proof reachable_rewritten as Hr.
  assert (Hno : ~ owns rewritten "a" 0) by (intros [v Hv]; discriminate Hv).
  split; [exact Hr|]. split; [reflexivity|]. split; [exact Hno|].
  destruct (stale_fire_is_noop rewritten 0%nat _ Hr eq_refl) as [Hstale _].
  exact (Hstale Hno).
Defined.

(** C4 as stated fails: [TimedCache(timeout=-5)] is constructed, with
    default timeout -5, although the timeout normalizes to a negative
    number; so is [TimedCache(timeout=timedelta(seconds=-5))]. *)
Lemma negative_timeout_counterexample :
  _convert_delay None 0 (Num (-5)) = Ok (-5)
  /\ -5 < 0
  /\ __init__ (K:=string) (Num (-5)) 0 = Ok (Cache (-5) [] [] 0)
  /\ __init__ (K:=string) (Timedelta (-5)) 0 = Ok (Cache (-5) [] [] 0).
Proof. repeat split. Qed.

Lemma construction_checks_no_sign_witness :
  _convert_delay None 0 (Timedelta (-5)) = Ok (-5)
  /\ __init__ (K:=string) (Timedelta (-5)) 0 = Ok (Cache (-5) [] [] 0).
Proof.
  split; [reflexivity|].
  apply (construction_checks_no_sign (K:=string)). reflexivity.
Defined.

Lemma delete_cancels_then_removes_witness :
  reachable rewritten
  /\ __delitem__ "b" rewritten = (Raise KeyError, rewritten)
  /\ (__delitem__ "a" rewritten).1 = Ok tt
  /\ dead (task_cancel 1 rewritten).2 1
  /\ fire 1 (__delitem__ "a" rewritten).2 = (__delitem__ "a" rewritten).2.
Proof.
  pose proof reachable_rewritten as Hr. split; [exact Hr|].
  destruct (delete_cancels_then_removes rewritten "b" Hr) as [Habsent _].
  destruct (delete_cancels_then_removes rewritten "a" Hr) as [_ Hpresent].
  destruct (Hpresent (PyInt 2) 1%nat eq_refl)
    as (_ & _ & Hdead & Hok & _ & Hnever).
  split; [exact (Habsent eq_refl)|]. split; [exact Hok|].
  split; [exact Hdead|]. exact (proj2 (Hnever [])).
Defined.

(** C8 as stated fails: iterating the map that holds ["a"] with value 1
    yields the key ["a"] and no value, exactly what iterating the map that
    holds ["a"] with value 2 yields, although their (key, value) pairs
    differ. *)
Lemma iteration_yields_pairs_counterexample :
  drain 2 (__iter__ holds_one) = Some (Ok ["a"])
  /\ drain 2 (__iter__ holds_one) = drain 2 (__iter__ holds_two)
  /\ snapshot holds_one = [("a", PyInt 1)]
  /\ snapshot holds_one <> snapshot holds_two.
Proof. repeat split. intros Heq. discriminate Heq. Qed.

Lemma iteration_yields_snapshot_keys_witness :
  reachable rewritten
  /\ drain 2 (__iter__ rewritten) = Some (Ok ["a"])
  /\ exists s', drain_mutating [[EDelItem "a"]; [ESetItem "c" PyNone NoDelay]]
                               (__iter__ rewritten) rewritten
                = Some (Ok ["a"], s').
Proof.
  pose proof reachable_rewritten as Hr. split; [exact Hr|].
  destruct (iteration_yields_snapshot_keys rewritten Hr)
    as (Hdrain & _ & _ & Hmut).
  split; [exact Hdrain|]. apply Hmut. simpl. lia.
Defined.

(** C9 as stated fails: no stored value, falsy or not, is hidden from
    [get]; a stored 0 is returned as 0. *)
Lemma falsy_value_invisible_counterexample :
  get "a" PyNone zero_stored = Ok (PyInt 0)
  /\ ~ (exists (s : cache (K:=string)) k v h default,
          dict_get k (storage s) = Some (v, h)
          /\ truthy v = false
          /\ get k default s <> Ok v).
Proof.
  split; [reflexivity|].
  intros (s & k & v & h & default & Hk & _ & Hget).
  apply Hget. unfold get, storage_get. by rewrite Hk.
Qed.

Lemma get_returns_stored_value_witness :
  dict_get "a" (storage zero_stored) = Some (PyInt 0, 0%nat)
  /\ truthy (PyInt 0) = false
  /\ get "a" PyNone zero_stored = Ok (PyInt 0).
Proof.
  split; [reflexivity|]. split; [reflexivity|].
  apply (get_returns_stored_value zero_stored "a" (PyInt 0) 0%nat PyNone).
  reflexivity.
Defined.

Lemma convert_delay_idempotent_on_positive_witness :
  0 < 5
  /\ _convert_delay None 0 (Num 5) = Ok 5
  /\ set "a" (PyInt 1) (Num 5) fresh
     = (Ok (PyInt 1), (__setitem__ "a" (PyInt 1) (Num 5) fresh).2).
Proof.
  assert (Hpos : 0 < 5) by lia. split; [exact Hpos|].
  destruct (convert_delay_idempotent_on_positive (K:=string) 5 Hpos)
    as (Hc & _ & Hset).
  split; [apply Hc|]. apply (Hset fresh "a" (PyInt 1)).
Defined.

(** C3.  The code at the failing inputs: on a map without the key, [get]
    with the default 5 raises [TypeError], with the default ["abc"] it
    returns ["a"], with the default [[1, 2]] it returns 1. *)
Theorem get_subscripts_truthy_default :
  get "missing" (PyInt 5) fresh = Raise TypeError
  /\ get "missing" (PyStr "abc") fresh = Ok (PyStr "a")
  /\ get "missing" (PyList [PyInt 1; PyInt 2]) fresh = Ok (PyInt 1)
  /\ get "missing" PyNone fresh = Ok PyNone
  /\ __getitem__ "missing" fresh = Raise KeyError.
Proof. repeat split. Qed.

(** C5.  The code at the failing input: for a naive [datetime] the
    subtraction raises [TypeError], which [except ValueError] does not
    catch; where the subtraction does raise [ValueError], the handler
    subtracts from the method [datetime.utcnow] and raises [TypeError].
    The other cases are as the claim says: a [timedelta] gives its
    seconds, an aware [datetime] the seconds elapsed since it, [None] and
    0 the default of the map, a negative number itself. *)
Theorem convert_delay_naive_datetime_raises
    (st : option Z) (now t secs default : Z) (p : positive) :
  _convert_delay st now (Datetime Naive t) = Raise TypeError
  /\ _convert_delay st now (Datetime AwareBadOffset t) = Raise TypeError
  /\ _convert_delay st now (Timedelta secs) = Ok secs
  /\ _convert_delay st now (Datetime Aware t) = Ok (now - t)
  /\ _convert_delay (Some default) now NoDelay = Ok default
  /\ _convert_delay (Some default) now (Num 0) = Ok default
  /\ _convert_delay st now (Num (Z.neg p)) = Ok (Z.neg p).
Proof. repeat split. Qed.

(** C6.  The code at the failing inputs: [TimedCache(timeout=0)] and
    [TimedCache(timeout=None)] raise [AttributeError], because
    [_convert_delay] reads [self.timeout] before [__init__] has assigned
    it; with the argument left out, the default 600 is stored. *)
Theorem construction_with_zero_raises (now : Z) :
  __init__ (K:=string) (Num 0) now = Raise AttributeError
  /\ __init__ (K:=string) NoDelay now = Raise AttributeError
  /\ __init__ (K:=string) (Num 600) now = Ok (Cache 600 [] [] now).
Proof. repeat split. Qed.

(** * Beyond the specification: sizes, lookups, order, expiry *)

Section PyDictSizes.
Context {K V : Type} `{EqDecision K}.
Implicit Types (d : list (K * V)) (k : K) (v : V).

Lemma dict_remove_length k v d :
  NoDup (dict_keys d) -> dict_get k d = Some v ->
  S (length (dict_remove k d)) = length d.
Proof.
  unfold dict_keys. induction d as [|[k0 v0] d IH]; [done|].
  rewrite fmap_cons, NoDup_cons. intros [Hin Hnd]. cbn [dict_get dict_remove].
  destruct (decide (k0 = k)) as [Heq|Hne].
  - intros _. simpl in Heq. subst k0.
    rewrite dict_remove_absent; [done|]. by apply dict_get_None.
  - intros Hk. simpl. by rewrite <- (IH Hnd Hk).
Qed.

Lemma dict_keys_remove_filter k d :
  dict_keys (dict_remove k d) = filter (fun x => x <> k) (dict_keys d).
Proof.
  unfold dict_keys. induction d as [|[k0 v0] d IH]; [done|].
  cbn [dict_remove]. rewrite fmap_cons, filter_cons. simpl.
  destruct (decide (k0 = k)) as [Heq|Hne].
  - by rewrite decide_False by (intros Hn; by apply Hn).
  - rewrite decide_True by done. by rewrite fmap_cons, IH.
Qed.
End PyDictSizes.

Section Sizes.
Context {K : Type} `{EqDecision K}.
Implicit Types (s : cache (K:=K)) (k key : K) (h : nat) (t : task (K:=K)).

Lemma pending_alter (ts : list (task (K:=K))) h t (f : task -> task) :
  ts !! h = Some t -> is_pending t = true -> is_pending (f t) = false ->
  S (length (List.filter is_pending (alter f h ts)))
  = length (List.filter is_pending ts).
Proof.
  revert h. induction ts as [|x ts IH]; intros h Hh Hp Hf; [done|].
  destruct h as [|h]; simpl in Hh.
  - injection Hh as ->. simpl. by rewrite Hp, Hf.
  - simpl. destruct (is_pending x); simpl; by rewrite <- (IH h Hh Hp Hf).
Qed.

Lemma pending_snoc (ts : list (task (K:=K))) t :
  is_pending t = true ->
  length (List.filter is_pending (ts ++ [t]))
  = S (length (List.filter is_pending ts)).
Proof.
  intros Hp. rewrite List.filter_app, length_app. simpl. rewrite Hp. simpl. lia.
Qed.

Lemma cancel_is_not_pending t : is_pending (cancel t) = false.
Proof.
  pose proof (cancel_not_pending t) as Hc. unfold is_pending.
  by destruct (t_state (cancel t)).
Qed.

(** A task that has ended with an exception stays as it is. *)
Lemma failed_exec e s h : failed s h -> failed (exec e s) h.
Proof.
  intros (t & x & Hh & Hst). exists t, x. split; [|done].
  apply exec_keeps_dead; [done | by rewrite Hst].
Qed.

Lemma size_evict k s :
  inv s -> (forall h, ~ failed s h) -> __len__ s = pending_timers s ->
  __len__ (evict k s).2 = pending_timers (evict k s).2.
Proof.
  unfold __len__, pending_timers. intros Hi Hnf Hsz. rewrite evict_eq; simpl.
  destruct (dict_get k (storage s)) as [[v h]|] eqn:Hk.
  - destruct (inv_entry s Hi k h) as (t & Hh & _ & Hst); [by exists v|].
    assert (Hp : t_state t = Pending).
    { destruct Hst as [?|[Hf _]]; [done|]. destruct (Hnf h). by exists t, OverflowError. }
    pose proof (dict_remove_length k (v, h) (storage s) (inv_keys s Hi) Hk).
    pose proof (pending_alter (tasks s) h t cancel Hh
                  (proj2 (is_pending_true t) Hp) (cancel_is_not_pending t)).
    lia.
  - by rewrite dict_remove_absent.
Qed.

Lemma size_install k v d s :
  dict_get k (storage s) = None -> __len__ s = pending_timers s ->
  __len__ (install k v d s).2 = pending_timers (install k v d s).2.
Proof.
  unfold __len__, pending_timers. intros Hk Hsz. rewrite install_eq; simpl.
  rewrite dict_set_absent by done. rewrite length_app, pending_snoc by done.
  simpl. lia.
Qed.

Lemma size_exec e s :
  inv s -> (forall h, ~ failed (exec e s) h) ->
  __len__ s = pending_timers s ->
  __len__ (exec e s) = pending_timers (exec e s).
Proof.
  intros Hi Hnf' Hsz.
  assert (Hnf : forall h, ~ failed s h)
    by (intros h Hf; by apply (Hnf' h), failed_exec).
  assert (Hset : forall k v tmo,
    __len__ (__setitem__ k v tmo s).2 = pending_timers (__setitem__ k v tmo s).2).
  { intros k v tmo. rewrite setitem_split.
    destruct (_convert_delay _ _ tmo); [|by apply size_evict].
    apply size_install; [apply evict_absent | by apply size_evict]. }
  destruct e as [k v tmo|k v tmo|k|h|dt]; simpl; [done| | | |done].
  - rewrite set_split. destruct (_convert_delay _ _ tmo) as [d|]; [|done].
    specialize (Hset k v (Num d)).
    by destruct (__setitem__ k v (Num d) s) as [[[]|e] s'].
  - destruct (dict_get k (storage s)) as [[v h]|] eqn:Hk.
    + erewrite delitem_evict by done. by apply size_evict.
    + by rewrite delitem_eq, Hk.
  - simpl in Hnf'. revert Hnf'. rewrite fire_eq.
    destruct (tasks s !! h) as [t|] eqn:Hh; [|done].
    destruct (is_pending t) eqn:Hp; [|done].
    destruct (overflows (t_delay t)).
    { intros Hnf'. destruct (Hnf' h).
      exists (finish (Raise OverflowError) t), OverflowError.
      simpl. by rewrite list_lookup_alter_eq, Hh. }
    destruct (due s t); [|done]. intros _.
    destruct (inv_timer s Hi h (t_key t)) as [v Hv];
      [exists t; by rewrite <- is_pending_true|].
    rewrite Hv. unfold __len__, pending_timers in *; simpl.
    pose proof (dict_remove_length _ _ _ (inv_keys s Hi) Hv).
    pose proof (pending_alter (tasks s) h t (finish (Ok tt)) Hh Hp eq_refl).
    lia.
Qed.

(** X1.  As long as no timer has ended with an exception, the size of the
    map is the number of live timers. *)
Theorem len_counts_pending_timers s :
  reachable s -> (forall h, ~ failed s h) -> __len__ s = pending_timers s.
Proof.
  induction 1 as [tmo now s Hnow Hs|e s Hr IH]; intros Hnf.
  - unfold __init__ in Hs. destruct (_convert_delay None now tmo); [|done].
    by injection Hs as <-.
  - apply size_exec; [by apply reachable_inv | done |].
    apply IH. intros h Hf. by apply (Hnf h), failed_exec.
Qed.

(** X2.  A write that succeeds grows the map by one when the key is new
    and leaves its size when the key is overwritten. *)
Theorem setitem_len s k v tmo d :
  reachable s ->
  _convert_delay (Some (timeout s)) (clock s) tmo = Ok d ->
  __len__ (__setitem__ k v tmo s).2
  = match dict_get k (storage s) with
    | Some _ => __len__ s
    | None => S (__len__ s)
    end.
Proof.
  intros Hr Hc. pose proof (reachable_inv s Hr) as Hi.
  rewrite setitem_split, Hc, install_eq, evict_eq. unfold __len__; simpl.
  rewrite dict_set_absent by apply dict_get_remove_eq. rewrite length_app; simpl.
  destruct (dict_get k (storage s)) as [e|] eqn:Hk.
  - pose proof (dict_remove_length k e (storage s) (inv_keys s Hi) Hk). lia.
  - rewrite dict_remove_absent by done. lia.
Qed.

(** X3.  Deleting a present key shrinks the map by exactly one, makes the
    key unknown to [__getitem__] and to [get], and changes what neither
    returns for any other key. *)
Theorem delitem_forgets_one_key s k v h :
  reachable s ->
  dict_get k (storage s) = Some (v, h) ->
  S (__len__ (__delitem__ k s).2) = __len__ s
  /\ __getitem__ k (__delitem__ k s).2 = Raise KeyError
  /\ get k PyNone (__delitem__ k s).2 = Ok PyNone
  /\ (forall k' default, k' <> k ->
        __getitem__ k' (__delitem__ k s).2 = __getitem__ k' s
        /\ get k' default (__delitem__ k s).2 = get k' default s).
Proof.
  intros Hr Hk. pose proof (reachable_inv s Hr) as Hi.
  rewrite delitem_eq, Hk. unfold __len__, __getitem__, get, storage_get; simpl.
  rewrite dict_get_remove_eq. split; [|split; [done|split; [done|]]].
  - apply (dict_remove_length k (v, h)); [apply (inv_keys s Hi) | done].
  - intros k' default Hne. by rewrite dict_get_remove_ne.
Qed.

(** X4.  After a write that succeeds, [__getitem__] and [get] return the
    value written, and return for every other key what they returned
    before. *)
Theorem setitem_then_lookup s k v tmo d :
  _convert_delay (Some (timeout s)) (clock s) tmo = Ok d ->
  (__setitem__ k v tmo s).1 = Ok tt
  /\ __getitem__ k (__setitem__ k v tmo s).2 = Ok v
  /\ (forall default, get k default (__setitem__ k v tmo s).2 = Ok v)
  /\ (forall k' default, k' <> k ->
        __getitem__ k' (__setitem__ k v tmo s).2 = __getitem__ k' s
        /\ get k' default (__setitem__ k v tmo s).2 = get k' default s).
Proof.
  intros Hc. rewrite setitem_split, Hc, install_eq, evict_eq.
  unfold __getitem__, get, storage_get; simpl.
  rewrite dict_get_set_eq. do 3 (split; [done|]).
  intros k' default Hne.
  by rewrite dict_get_set_ne, dict_get_remove_ne.
Qed.

(** X5.  A write that succeeds puts its key last in the order of
    iteration, also when the key was present: the keys afterwards are the
    other keys in their old order, followed by the key written. *)
Theorem setitem_moves_key_last s k v tmo d :
  _convert_delay (Some (timeout s)) (clock s) tmo = Ok d ->
  dict_keys (storage (__setitem__ k v tmo s).2)
  = filter (fun x => x <> k) (dict_keys (storage s)) ++ [k].
Proof.
  intros Hc. rewrite setitem_split, Hc, install_eq, evict_eq; simpl.
  rewrite dict_keys_set, dict_get_remove_eq.
  by rewrite dict_keys_remove_filter.
Qed.
End Sizes.

Section Expiry.
Context {K : Type} `{EqDecision K}.
Implicit Types (s : cache (K:=K)) (k key : K) (h : nat) (t : task (K:=K)).

Lemma clock_setitem k v tmo s : clock (__setitem__ k v tmo s).2 = clock s.
Proof.
  rewrite setitem_split, evict_eq. by destruct (_convert_delay _ _ tmo).
Qed.

Lemma clock_exec e s : clock s <= clock (exec e s).
Proof.
  destruct e as [k v tmo|k v tmo|k|h|dt]; simpl.
  - by rewrite clock_setitem.
  - rewrite set_split. destruct (_convert_delay _ _ tmo) as [d|]; [|done].
    pose proof (clock_setitem k v (Num d) s) as Hc.
    destruct (__setitem__ k v (Num d) s) as [[[]|e] s']; simpl in *; lia.
  - rewrite delitem_eq. by destruct (dict_get k (storage s)) as [[v h]|].
  - rewrite fire_eq. destruct (tasks s !! h) as [t|]; [|done].
    destruct (is_pending t); [|done].
    destruct (overflows (t_delay t)); [done|].
    destruct (due s t); [|done].
    by destruct (dict_get (t_key t) (storage s)).
  - unfold advance. lia.
Qed.

Lemma clock_run es s : clock s <= clock (run es s).
Proof.
  revert s. induction es as [|e es IH]; intros s; [done|].
  simpl. pose proof (clock_exec e s). pose proof (IH (exec e s)). lia.
Qed.

Lemma with_state_id t : with_state (t_state t) t = t.
Proof. by destruct t. Qed.

(** Before its deadline a step of the timer of an entry leaves the entry;
    it can only be the first step, ending the task with [OverflowError]. *)
Lemma fire_own_early k v h t s :
  dict_get k (storage s) = Some (v, h) -> tasks s !! h = Some t ->
  clock s < deadline t ->
  dict_get k (storage (fire h s)) = Some (v, h)
  /\ exists x, tasks (fire h s) !! h = Some (with_state x t).
Proof.
  intros Hk Hh Hc. rewrite fire_eq, Hh.
  assert (Hid : exists x, tasks s !! h = Some (with_state x t))
    by (exists (t_state t); by rewrite with_state_id).
  destruct (is_pending t); [|done].
  destruct (overflows (t_delay t)); simpl.
  { split; [done|]. exists (Failed OverflowError).
    by rewrite list_lookup_alter_eq, Hh. }
  unfold due. unfold deadline in Hc. by rewrite (proj2 (Z.leb_gt _ _) Hc).
Qed.

Lemma run_survives es k v h t s :
  inv s -> Forall (spares k) es ->
  dict_get k (storage s) = Some (v, h) ->
  (exists x, tasks s !! h = Some (with_state x t)) ->
  clock (run es s) < deadline t ->
  dict_get k (storage (run es s)) = Some (v, h).
Proof.
  revert s. induction es as [|e es IH]; intros s Hi Hsp Hk [x Hh] Hc; [done|].
  apply Forall_cons in Hsp as [Hsp Hsps]. simpl in *.
  pose proof (clock_exec e s) as Hc1.
  pose proof (clock_run es (exec e s)) as Hc2.
  assert (Hstep : dict_get k (storage (exec e s)) = Some (v, h)
                  /\ exists x', tasks (exec e s) !! h = Some (with_state x' t)).
  { assert (Hleaves : leaves k h e ->
        dict_get k (storage (exec e s)) = Some (v, h)
        /\ exists x', tasks (exec e s) !! h = Some (with_state x' t)).
    { intros Hl.
      destruct (exec_leaves e k v h (with_state x t) s Hi Hl Hk Hh) as [? ?].
      split; [done | by exists x]. }
    destruct e as [k' v' tmo|k' v' tmo|k'|h'|dt]; try (by apply Hleaves).
    destruct (decide (h' = h)) as [->|Hne]; [|by apply Hleaves].
    simpl.
    destruct (fire_own_early k v h (with_state x t) s Hk Hh) as [? [x' ?]];
      [unfold deadline in *; simpl in *; lia|].
    split; [done | by exists x']. }
  destruct Hstep as [Hk' Hh']. apply IH; [by apply inv_exec | done..].
Qed.

(** X6.  An entry does not expire early: whatever timers fire and however
    time passes, as long as nobody writes or deletes the key and the
    clock has not reached the deadline of its timer, the key is still
    there with its value. *)
Theorem entry_survives_until_deadline s es k v h t :
  reachable s ->
  dict_get k (storage s) = Some (v, h) -> tasks s !! h = Some t ->
  Forall (spares k) es ->
  clock (run es s) < deadline t ->
  dict_get k (storage (run es s)) = Some (v, h)
  /\ __getitem__ k (run es s) = Ok v
  /\ forall default, get k default (run es s) = Ok v.
Proof.
  intros Hr Hk Hh Hsp Hc.
  assert (Hk' : dict_get k (storage (run es s)) = Some (v, h)).
  { apply (run_survives es k v h t s (reachable_inv s Hr) Hsp Hk); [|done].
    exists (t_state t). by rewrite with_state_id. }
  unfold __getitem__, get, storage_get. by rewrite Hk'.
Qed.

(** X7.  A write restarts the time to live: after a write that succeeds
    at clock [c] with effective timeout [d], however old the entry it
    replaced, the key keeps the value written while the clock is below
    [c + d], unless it is written or deleted again. *)
Theorem write_restarts_time_to_live s es k v tmo d :
  reachable s ->
  _convert_delay (Some (timeout s)) (clock s) tmo = Ok d ->
  Forall (spares k) es ->
  clock (run es (__setitem__ k v tmo s).2) < clock s + effective s d ->
  __getitem__ k (run es (__setitem__ k v tmo s).2) = Ok v.
Proof.
  intros Hr Hc Hsp Hclock.
  assert (Hr' : reachable (__setitem__ k v tmo s).2)
    by apply (reachable_exec (ESetItem k v tmo) s Hr).
  pose proof (reachable_inv _ Hr') as Hi'. revert Hclock Hi'.
  rewrite setitem_split, Hc, install_eq, evict_eq; simpl.
  set (ts := match dict_get k (storage s) with
             | Some (_, h) => alter cancel h (tasks s)
             | None => tasks s
             end).
  set (t := Task k d (effective s d) (clock s) Pending).
  intros Hclock Hi'.
  unfold __getitem__.
  rewrite (run_survives es k v (length ts) t _ Hi' Hsp); [done| | |done].
  - simpl. apply dict_get_set_eq.
  - exists Pending. simpl. by apply list_lookup_middle.
Qed.

(** X8.  When the timer of an entry fires at or after its deadline, the
    map loses exactly that key: it shrinks by one, the key is unknown to
    [__getitem__] and [get], every other key reads as before, and the
    task has finished without an exception. *)
Theorem expiry_removes_one_key s k v h t :
  reachable s ->
  dict_get k (storage s) = Some (v, h) -> tasks s !! h = Some t ->
  deadline t <= clock s ->
  S (__len__ (fire h s)) = __len__ s
  /\ __getitem__ k (fire h s) = Raise KeyError
  /\ get k PyNone (fire h s) = Ok PyNone
  /\ (forall k' default, k' <> k ->
        __getitem__ k' (fire h s) = __getitem__ k' s
        /\ get k' default (fire h s) = get k' default s)
  /\ tasks (fire h s) !! h = Some (with_state Finished t).
Proof.
  intros Hr Hk Hh Hd. pose proof (reachable_inv s Hr) as Hi.
  destruct (inv_entry s Hi k h) as (t' & Hh' & Hkey & Hst); [by exists v|].
  assert (t' = t) by congruence. subst t'.
  pose proof (due_in_range s h t Hi Hh Hd) as Hov.
  assert (Hp : t_state t = Pending)
    by (destruct Hst as [?|[_ ?]]; [done | congruence]).
  rewrite (fire_due k v h t s Hk Hh Hkey Hp Hov Hd).
  unfold __len__, __getitem__, get, storage_get; simpl.
  rewrite dict_get_remove_eq. split; [|split; [done|split; [done|split]]].
  - apply (dict_remove_length k (v, h)); [apply (inv_keys s Hi) | done].
  - intros k' default Hne. by rewrite dict_get_remove_ne.
  - by rewrite list_lookup_alter_eq, Hh.
Qed.

(** X9.  Two entries never share a timer: the handles stored under two
    keys are equal only if the keys are, and every stored handle is a
    task of the loop. *)
Theorem handles_are_not_shared s k k' v v' h h' :
  reachable s ->
  dict_get k (storage s) = Some (v, h) ->
  dict_get k' (storage s) = Some (v', h') ->
  (h = h' <-> k = k') /\ (h < length (tasks s))%nat.
Proof.
  intros Hr Hk Hk'. pose proof (reachable_inv s Hr) as Hi. split; [split|].
  - intros <-. by eapply inv_handle_inj.
  - intros <-. congruence.
  - destruct (inv_entry s Hi k h) as (t & Hh & _); [by exists v|].
    by eapply lookup_lt_Some.
Qed.
End Expiry.

Section Writes.
Context {K : Type} `{EqDecision K}.
Implicit Types (s : cache (K:=K)) (k key : K) (h : nat) (t : task (K:=K)).

Lemma effective_idem s d : effective s (effective s d) = effective s d.
Proof.
  unfold effective. destruct (d =? 0) eqn:Hd; [|by rewrite Hd].
  by destruct (timeout s =? 0).
Qed.

(** X10.  [set] and [__setitem__] agree whenever the timeout converts:
    [set] returns the value, and both leave the same storage and, after
    the tasks [evict] left, one new pending timer for the key that sleeps
    the same effective timeout from the same clock; only the argument
    recorded in the timer differs ([set] passes the converted number
    through [_convert_delay] once more). *)
Theorem set_agrees_with_setitem s k v tmo d :
  _convert_delay (Some (timeout s)) (clock s) tmo = Ok d ->
  (set k v tmo s).1 = Ok v
  /\ storage (set k v tmo s).2 = storage (__setitem__ k v tmo s).2
  /\ tasks (__setitem__ k v tmo s).2
     = tasks (evict k s).2 ++ [Task k d (effective s d) (clock s) Pending]
  /\ tasks (set k v tmo s).2
     = tasks (evict k s).2
       ++ [Task k (effective s d) (effective s d) (clock s) Pending].
Proof.
  intros Hc.
  assert (Hn : _convert_delay (Some (timeout s)) (clock s) (Num d)
               = Ok (effective s d)).
  { unfold effective; simpl. by destruct (d =? 0). }
  rewrite set_split, Hc, (setitem_split k v (Num d)), Hn.
  rewrite (setitem_split k v tmo), Hc, !install_eq, evict_eq; simpl.
  pose proof (effective_idem s d) as Hidem. revert Hidem.
  unfold effective; simpl. by intros ->.
Qed.

(** X11.  When the timeout does not convert, [set] raises before it has
    touched the map, while [__setitem__] raises after it has popped the
    old entry and cancelled its timer: the key it was asked to write is
    gone. *)
Theorem failed_write_loses_old_entry s k v tmo e :
  _convert_delay (Some (timeout s)) (clock s) tmo = Raise e ->
  set k v tmo s = (Raise e, s)
  /\ __setitem__ k v tmo s = (Raise e, (evict k s).2)
  /\ __getitem__ k (__setitem__ k v tmo s).2 = Raise KeyError
  /\ (forall k', k' <> k ->
        __getitem__ k' (__setitem__ k v tmo s).2 = __getitem__ k' s).
Proof.
  intros Hc. rewrite set_split, setitem_split, Hc, evict_eq.
  unfold __getitem__; simpl. rewrite dict_get_remove_eq.
  do 3 (split; [done|]). intros k' Hne. by rewrite dict_get_remove_ne.
Qed.

(** X13.  Consuming the iterator returns as many keys as [__len__] says,
    and [__getitem__] finds every one of them in the map the iterator was
    made from. *)
Theorem iteration_agrees_with_len_and_getitem s :
  exists ks,
    drain (S (__len__ s)) (__iter__ s) = Some (Ok ks)
    /\ length ks = __len__ s
    /\ forall k, k ∈ ks -> exists v, __getitem__ k s = Ok v.
Proof.
  exists (dict_keys (storage s)). unfold __len__.
  assert (Hlen : length (snapshot s) = length (storage s))
    by (unfold snapshot; apply length_map).
  split; [|split].
  - unfold __iter__. rewrite <- Hlen, <- snapshot_keys.
    by rewrite (drain_from (snapshot s) (length (snapshot s)) 0).
  - unfold dict_keys. by rewrite length_fmap.
  - intros k Hin. unfold __getitem__.
    destruct (dict_get k (storage s)) as [[v h]|] eqn:Hk; [by exists v|].
    by apply dict_get_None in Hk.
Qed.
End Writes.

(** * NestedNamespace *)

Section NestedNamespaceFacts.
Variable py_str : json -> string.
Local Abbreviation prepared := (NestedNamespace.prepared py_str).
Local Abbreviation _prepare_ := (NestedNamespace._prepare_ py_str).
Local Abbreviation ns_init := (NestedNamespace.__init__ py_str).
Local Abbreviation list_loop := (NestedNamespace.list_loop py_str).
Local Abbreviation update := NestedNamespace.update.
Local Abbreviation mangled := NestedNamespace.mangled.
Local Abbreviation has_self := NestedNamespace.has_self.
Local Abbreviation to_dict := NestedNamespace.to_dict.
Implicit Types (d : list (string * json)) (a : list (string * nsval))
  (j : json) (k : string).

(** A dictionary value is replaced by the object its constructor makes. *)
Lemma prepared_dict d :
  prepared (JDict d)
  = match ns_init d with
    | Ok a => Ok (Namespace a)
    | Raise e => Raise e
    end.
Proof.
  unfold NestedNamespace.__init__. simpl. destruct (has_self d); [done|].
  assert (Hloop : forall attrs,
    (fix loop (attrs : list (string * json)) : res (list (string * nsval)) :=
       match attrs with
       | [] => Ok []
       | (key, v) :: rest =>
           match prepared v with
           | Ok v' =>
               match loop rest with
               | Ok rest' => Ok ((key, v') :: rest')
               | Raise e => Raise e
               end
           | Raise e => Raise e
           end
       end) attrs = _prepare_ attrs).
  { induction attrs as [|[key v] rest IH]; [done|]. simpl. by rewrite IH. }
  rewrite Hloop. by destruct (_prepare_ d).
Qed.

Lemma update_get_notin a kw k :
  k ∉ dict_keys kw -> dict_get k (update a kw) = dict_get k a.
Proof.
  unfold NestedNamespace.update, dict_keys. revert a.
  induction kw as [|[k0 v0] kw IH]; intros a Hk; [done|].
  rewrite fmap_cons, not_elem_of_cons in Hk. destruct Hk as [Hne Hk]. simpl.
  rewrite IH by done. apply dict_get_set_ne. simpl in Hne. congruence.
Qed.

Lemma update_get_in a kw k v :
  NoDup (dict_keys kw) -> dict_get k kw = Some v ->
  dict_get k (update a kw) = Some v.
Proof.
  unfold dict_keys. revert a.
  induction kw as [|[k0 v0] kw IH]; intros a Hnd Hk; [done|].
  rewrite fmap_cons, NoDup_cons in Hnd. destruct Hnd as [Hin Hnd].
  simpl in Hk. change (update a ((k0, v0) :: kw))
    with (update (dict_set k0 v0 a) kw).
  destruct (decide (k0 = k)) as [->|Hne].
  - injection Hk as ->. rewrite update_get_notin by done.
    apply dict_get_set_eq.
  - by apply IH.
Qed.

Lemma prepare_keys d n : _prepare_ d = Ok n -> dict_keys n = dict_keys d.
Proof.
  unfold dict_keys. revert n. induction d as [|[k v] d IH]; intros n; simpl.
  - by intros [= <-].
  - destruct (prepared v) as [v'|]; [|done].
    destruct (_prepare_ d) as [n'|]; [|done].
    intros [= <-]. rewrite !fmap_cons. f_equal. by apply IH.
Qed.

Lemma prepare_get d n k j :
  _prepare_ d = Ok n -> dict_get k d = Some j ->
  exists v, prepared j = Ok v /\ dict_get k n = Some v.
Proof.
  revert n. induction d as [|[k0 v0] d IH]; intros n; simpl; [done|].
  destruct (prepared v0) as [v0'|] eqn:Hv0; [|done].
  destruct (_prepare_ d) as [n'|]; [|done].
  intros [= <-] Hk. simpl. destruct (decide (k0 = k)) as [->|Hne].
  - injection Hk as ->. by exists v0'.
  - by apply IH.
Qed.

Lemma list_loop_no_dict items cur :
  forallb (fun i => negb (is_dict i)) items = true ->
  list_loop items cur = Ok cur.
Proof.
  induction items as [|i items IH]; [done|]. simpl.
  intros [Hi Hrest]%andb_prop. destruct i; try done; by apply IH.
Qed.

Lemma leaf_prepared j : leaf j = true -> prepared j = Ok (Raw j).
Proof.
  destruct j as [| | | |items|d]; try done.
  intros Hl. simpl in *. by rewrite list_loop_no_dict.
Qed.

(** [_prepare_] never leaves a dictionary as it was. *)
Lemma prepared_raw_not_dict j j' : prepared j = Ok (Raw j') -> is_dict j' = false.
Proof.
  destruct j as [| | | |items|d]; try (by intros [= <-]).
  - simpl. destruct (list_loop items None) as [[a|]|]; try done.
    by intros [= <-].
  - rewrite prepared_dict. by destruct (ns_init d).
Qed.

Lemma init_attribute d a k j :
  ns_init d = Ok a -> NoDup (dict_keys d) -> dict_get k d = Some j ->
  exists v, prepared j = Ok v /\ dict_get k a = Some v.
Proof.
  unfold NestedNamespace.__init__. destruct (has_self d); [done|].
  destruct (_prepare_ d) as [n|] eqn:Hn; [|done].
  intros [= <-] Hnd Hk.
  destruct (prepare_get d n k j Hn Hk) as (v & Hv & Hkn).
  exists v. split; [done|]. apply update_get_in; [|done].
  by rewrite (prepare_keys d n Hn).
Qed.

Lemma prepared_raw_same j j' : prepared j = Ok (Raw j') -> j' = j.
Proof.
  destruct j as [| | | |items|d]; try (by intros [= <-]).
  - simpl. destruct (list_loop items None) as [[a|]|]; try done.
    by intros [= <-].
  - rewrite prepared_dict. by destruct (ns_init d).
Qed.

Lemma init_no_attribute d a k :
  ns_init d = Ok a -> k ∉ dict_keys d -> k <> mangled -> dict_get k a = None.
Proof.
  unfold NestedNamespace.__init__. destruct (has_self d); [done|].
  destruct (_prepare_ d) as [n|] eqn:Hn; [|done].
  intros [= <-] Hno Hne.
  rewrite update_get_notin by (by rewrite (prepare_keys d n Hn)).
  simpl. by rewrite decide_False.
Qed.


(** X15.  Every key of the input that is not one of [__class__],
    [__dict__], [__weakref__] is an attribute of the object, holding what
    [_prepare_] makes of its value; a value that is neither a dictionary
    nor a list with a dictionary in it is held unchanged. *)
Theorem attributes_hold_prepared_values d a k j :
  ns_init d = Ok a -> NoDup (dict_keys d) -> dict_get k d = Some j ->
  data_descriptor k = false ->
  exists v, prepared j = Ok v /\ getattr_own a k = Some v
            /\ (leaf j = true -> v = Raw j).
Proof.
  intros Hinit Hnd Hk Hdd. unfold getattr_own. rewrite Hdd.
  destruct (init_attribute d a k j Hinit Hnd Hk) as (v & Hv & Ha).
  exists v. do 2 (split; [done|]). intros Hl.
  rewrite (leaf_prepared j Hl) in Hv. by injection Hv.
Qed.

(** X16.  Nested dictionaries become nested objects: whatever is found
    in the input by a path of keys, none of them [__class__], [__dict__]
    or [__weakref__], and is neither a dictionary nor a list with a
    dictionary in it, is found unchanged in the object by the same path
    of attributes. *)
Theorem nested_attributes_mirror_nested_keys path j v x :
  prepared j = Ok v -> unique_along path j ->
  Forall (fun k => data_descriptor k = false) path ->
  json_at path j = Some x -> leaf x = true ->
  ns_at path v = Some (Raw x).
Proof.
  revert j v. induction path as [|k path IH]; intros j v Hv Hu Hdd Hx Hl.
  - simpl in *. injection Hx as ->. rewrite (leaf_prepared x Hl) in Hv.
    by injection Hv as <-.
  - destruct j as [| | | | |d]; try done. simpl in Hx, Hu.
    destruct Hu as [Hnd Hu]. apply Forall_cons in Hdd as [Hk0 Hdd].
    destruct (dict_get k d) as [j'|] eqn:Hk; [|done].
    rewrite prepared_dict in Hv.
    destruct (ns_init d) as [a|] eqn:Ha; [|done]. injection Hv as <-.
    destruct (init_attribute d a k j' Ha Hnd Hk) as (v' & Hv' & Hka).
    simpl. unfold getattr_own. rewrite Hk0, Hka. by apply (IH j' v').
Qed.

Lemma list_loop_trimmed items cur :
  list_loop items cur = list_loop (trimmed items) cur.
Proof.
  unfold trimmed, dict_heads. revert cur.
  induction items as [|i items IH]; intros cur; [done|].
  destruct i as [| | | |l|[|[k v] more]]; simpl; try apply IH; [done|].
  destruct cur as [a|].
  - destruct (NestedNamespace.setattr a k (Raw v)); [apply IH | done].
  - destruct (String.eqb k "self"); [done | apply IH].
Qed.

(** X17.  Of a list that holds a dictionary, only the first pair of each
    of its dictionaries counts: the list is treated exactly as the list
    of those one-pair dictionaries; all other items and pairs are
    dropped.  A list without a dictionary is held unchanged. *)
Theorem list_keeps_first_pairs_only items :
  (dict_heads items <> [] ->
   prepared (JList items) = prepared (JList (trimmed items)))
  /\ (dict_heads items = [] -> prepared (JList items) = Ok (Raw (JList items))).
Proof.
  split.
  - intros Hne. simpl. rewrite (list_loop_trimmed items None).
    destruct (list_loop (trimmed items) None) as [[a|]|] eqn:Hl; try done.
    exfalso. revert Hne Hl. unfold trimmed.
    destruct (dict_heads items) as [|[[k v]|] hs]; [done| |done].
    intros _. simpl. destruct (String.eqb k "self"); [done|].
    generalize (NestedNamespace.first_item py_str k v). clear.
    induction hs as [|[[k v]|] hs IH]; intros a; simpl; [done| |done].
    destruct (NestedNamespace.setattr a k (Raw v)); [apply IH | done].
  - intros Hnil. apply leaf_prepared. simpl.
    induction items as [|i items IH]; [done|]. simpl in *.
    unfold dict_heads in *. simpl in Hnil. apply app_eq_nil in Hnil as [Hi Hr].
    rewrite (IH Hr), andb_true_r. by destruct i as [| | | | |[|p l]].
Qed.

Lemma list_loop_empty_dict items cur :
  JDict [] ∈ items -> exists e, list_loop items cur = Raise e.
Proof.
  revert cur. induction items as [|i items IH]; intros cur Hin.
  - by apply elem_of_nil in Hin.
  - apply elem_of_cons in Hin as [<-|Hin]; [by exists IndexError|].
    destruct i as [| | | |l|[|[k v] more]]; simpl; try (by apply IH).
    + by exists IndexError.
    + destruct cur as [a|].
      * destruct (NestedNamespace.setattr a k (Raw v)) as [a'|e];
          [by apply IH | by exists e].
      * destruct (String.eqb k "self"); [by exists TypeError | by apply IH].
Qed.

(** X18.  A list that holds an empty dictionary cannot be converted: the
    constructor raises for every input that has such a list as the value
    of a key. *)
Theorem empty_dict_in_list_raises d k items :
  dict_get k d = Some (JList items) -> JDict [] ∈ items ->
  exists e, ns_init d = Raise e.
Proof.
  intros Hk Hin. unfold NestedNamespace.__init__.
  destruct (has_self d); [by exists TypeError|].
  assert (Hp : exists e, _prepare_ d = Raise e).
  { clear -Hk Hin. induction d as [|[k0 v0] d IH]; [done|]. simpl in *.
    destruct (decide (k0 = k)) as [->|Hne].
    - injection Hk as ->. simpl.
      destruct (list_loop_empty_dict items None Hin) as [e ->]. by exists e.
    - destruct (prepared v0) as [v0'|e0]; [|by exists e0].
      destruct (IH Hk) as [e ->]. by exists e. }
  destruct Hp as [e ->]. by exists e.
Qed.

End NestedNamespaceFacts.

(** ** The further properties on the sample objects *)

Lemma reachable_two_keys : reachable two_keys.
Proof. apply reachable_run, reachable_fresh. Qed.

Lemma len_counts_pending_timers_witness :
  reachable two_keys
  /\ (forall h, ~ failed two_keys h)
  /\ __len__ two_keys = 2%nat /\ pending_timers two_keys = 2%nat.
Proof.
  pose proof reachable_two_keys as Hr. split; [exact Hr|].
  assert (Hnf : forall h, ~ failed two_keys h).
  { intros h (t & e & Ht & Hst).
    destruct h as [|[|h]]; [| |discriminate Ht];
      injection Ht as <-; discriminate Hst. }
  split; [exact Hnf|].
  pose proof (len_counts_pending_timers two_keys Hr Hnf) as Hlen.
  split; [reflexivity|]. rewrite <- Hlen. reflexivity.
Defined.

Lemma setitem_len_witness :
  reachable two_keys
  /\ __len__ (__setitem__ "a" (PyInt 7) (Num 3) two_keys).2 = 2%nat
  /\ __len__ (__setitem__ "c" (PyInt 7) (Num 3) two_keys).2 = 3%nat.
Proof.
  pose proof reachable_two_keys as Hr. split; [exact Hr|]. split.
  - exact (setitem_len two_keys "a" (PyInt 7) (Num 3) 3 Hr eq_refl).
  - exact (setitem_len two_keys "c" (PyInt 7) (Num 3) 3 Hr eq_refl).
Defined.

Lemma delitem_forgets_one_key_witness :
  reachable two_keys
  /\ dict_get "a" (storage two_keys) = Some (PyInt 1, 0%nat)
  /\ __len__ (__delitem__ "a" two_keys).2 = 1%nat
  /\ __getitem__ "a" (__delitem__ "a" two_keys).2 = Raise KeyError
  /\ __getitem__ "b" (__delitem__ "a" two_keys).2 = Ok (PyInt 2).
Proof.
  pose proof reachable_two_keys as Hr. split; [exact Hr|].
  split; [reflexivity|].
  destruct (delitem_forgets_one_key two_keys "a" (PyInt 1) 0%nat Hr eq_refl)
    as (Hlen & Hget & _ & Hother).
  split; [reflexivity|]. split; [exact Hget|].
  destruct (Hother "b" PyNone) as [Hb _]; [discriminate|].
  rewrite Hb. reflexivity.
Defined.

Lemma setitem_then_lookup_witness :
  _convert_delay (Some (timeout two_keys)) (clock two_keys) (Timedelta 30)
  = Ok 30
  /\ __getitem__ "b" (__setitem__ "b" (PyStr "") (Timedelta 30) two_keys).2
     = Ok (PyStr "")
  /\ __getitem__ "a" (__setitem__ "b" (PyStr "") (Timedelta 30) two_keys).2
     = Ok (PyInt 1).
Proof.
  split; [reflexivity|].
  destruct (setitem_then_lookup two_keys "b" (PyStr "") (Timedelta 30) 30
              eq_refl) as (_ & Hget & _ & Hother).
  split; [exact Hget|].
  destruct (Hother "a" PyNone) as [Ha _]; [discriminate|].
  rewrite Ha. reflexivity.
Defined.

Lemma setitem_moves_key_last_witness :
  dict_keys (storage two_keys) = ["a"; "b"]
  /\ dict_keys (storage (__setitem__ "a" (PyInt 7) NoDelay two_keys).2)
     = ["b"; "a"].
Proof.
  split; [reflexivity|].
  rewrite (setitem_moves_key_last two_keys "a" (PyInt 7) NoDelay 600 eq_refl).
  reflexivity.
Defined.

Lemma entry_survives_until_deadline_witness :
  reachable two_keys
  /\ clock (run [EFire 1; ETick 300; EFire 0; EFire 1; EDelItem "a";
                 ESetItem "c" PyNone NoDelay] two_keys) = 400
  /\ __getitem__ "b" (run [EFire 1; ETick 300; EFire 0; EFire 1; EDelItem "a";
                           ESetItem "c" PyNone NoDelay] two_keys)
     = Ok (PyInt 2).
Proof.
  pose proof reachable_two_keys as Hr. split; [exact Hr|].
  split; [reflexivity|].
  refine (proj1 (proj2 (entry_survives_until_deadline two_keys _ "b" (PyInt 2)
            1%nat (Task "b" 500 500 0 Pending) Hr eq_refl eq_refl _ _))).
  - repeat constructor; discriminate.
  - reflexivity.
Defined.

Lemma write_restarts_time_to_live_witness :
  reachable rewritten
  /\ clock rewritten = 700
  /\ __getitem__ "a"
       (run [ETick 40; EFire 1; EFire 3; EFire 0]
            (__setitem__ "a" (PyInt 3) (Num 50) rewritten).2)
     = Ok (PyInt 3).
Proof.
  pose proof reachable_rewritten as Hr. split; [exact Hr|].
  split; [reflexivity|].
  apply (write_restarts_time_to_live rewritten _ "a" (PyInt 3) (Num 50) 50 Hr
           eq_refl).
  - repeat constructor.
  - reflexivity.
Defined.

Lemma expiry_removes_one_key_witness :
  reachable rewritten
  /\ __len__ rewritten = 1%nat
  /\ __len__ (fire 1 rewritten) = 0%nat
  /\ __getitem__ "a" (fire 1 rewritten) = Raise KeyError.
Proof.
  pose proof reachable_rewritten as Hr. split; [exact Hr|].
  split; [reflexivity|].
  destruct (expiry_removes_one_key rewritten "a" (PyInt 2) 1%nat
              (Task "a" 5 5 0 Pending) Hr eq_refl eq_refl)
    as (Hlen & Hget & _); [by vm_compute|].
  split; [reflexivity | exact Hget].
Defined.

Lemma handles_are_not_shared_witness :
  reachable two_keys
  /\ dict_get "a" (storage two_keys) = Some (PyInt 1, 0%nat)
  /\ dict_get "b" (storage two_keys) = Some (PyInt 2, 1%nat)
  /\ (0%nat = 1%nat <-> "a" = "b").
Proof.
  pose proof reachable_two_keys as Hr. split; [exact Hr|].
  do 2 (split; [reflexivity|]).
  exact (proj1 (handles_are_not_shared two_keys "a" "b" (PyInt 1) (PyInt 2)
                  0%nat 1%nat Hr eq_refl eq_refl)).
Defined.

Lemma set_agrees_with_setitem_witness :
  _convert_delay (Some (timeout two_keys)) (clock two_keys) (Timedelta 0)
  = Ok 0
  /\ (set "a" (PyInt 7) (Timedelta 0) two_keys).1 = Ok (PyInt 7)
  /\ storage (set "a" (PyInt 7) (Timedelta 0) two_keys).2
     = storage (__setitem__ "a" (PyInt 7) (Timedelta 0) two_keys).2.
Proof.
  split; [reflexivity|].
  destruct (set_agrees_with_setitem two_keys "a" (PyInt 7) (Timedelta 0) 0
              eq_refl) as (Hret & Hst & _).
  split; [exact Hret | exact Hst].
Defined.

Lemma failed_write_loses_old_entry_witness :
  _convert_delay (Some (timeout two_keys)) (clock two_keys) (Datetime Naive 0)
  = Raise TypeError
  /\ __getitem__ "a" two_keys = Ok (PyInt 1)
  /\ set "a" (PyInt 7) (Datetime Naive 0) two_keys = (Raise TypeError, two_keys)
  /\ __getitem__ "a" (__setitem__ "a" (PyInt 7) (Datetime Naive 0) two_keys).2
     = Raise KeyError.
Proof.
  do 2 (split; [reflexivity|]).
  destruct (failed_write_loses_old_entry two_keys "a" (PyInt 7)
              (Datetime Naive 0) TypeError eq_refl) as (Hset & _ & Hget & _).
  split; [exact Hset | exact Hget].
Defined.

Ltac not_among :=
  let Hin := fresh in
  intros Hin;
  repeat (apply elem_of_cons in Hin as [Hin|Hin]; [discriminate Hin|]);
  by apply elem_of_nil in Hin.

Ltac distinct_keys :=
  repeat (apply NoDup_cons_2; [not_among|]); apply NoDup_nil_2.

Lemma sample_json_unique : NoDup (dict_keys sample_json).
Proof. distinct_keys. Qed.


Lemma attributes_hold_prepared_values_witness :
  exists a, NestedNamespace.__init__ sample_str sample_json = Ok a
            /\ dict_get "n" sample_json = Some (JNum 1)
            /\ getattr_own a "n" = Some (Raw (JNum 1)).
Proof.
  destruct (NestedNamespace.__init__ sample_str sample_json) as [a|] eqn:Ha;
    [|discriminate Ha].
  exists a. do 2 (split; [reflexivity|]).
  destruct (attributes_hold_prepared_values sample_str sample_json a "n"
              (JNum 1) Ha sample_json_unique eq_refl eq_refl)
    as (v & _ & Hv & Hraw).
  by rewrite Hv, (Hraw eq_refl).
Defined.

Lemma nested_attributes_mirror_nested_keys_witness :
  exists v, NestedNamespace.prepared sample_str (JDict sample_json) = Ok v
            /\ json_at ["user"; "tags"] (JDict sample_json)
               = Some (JList [JStr "x"])
            /\ ns_at ["user"; "tags"] v = Some (Raw (JList [JStr "x"])).
Proof.
  destruct (NestedNamespace.prepared sample_str (JDict sample_json))
    as [v|] eqn:Hv; [|discriminate Hv].
  exists v. do 2 (split; [reflexivity|]).
  apply (nested_attributes_mirror_nested_keys sample_str ["user"; "tags"]
           (JDict sample_json) v (JList [JStr "x"]) Hv); [| |reflexivity..].
  - simpl. split; [exact sample_json_unique|].
    split; [distinct_keys | exact I].
  - repeat constructor.
Defined.

Lemma list_keeps_first_pairs_only_witness :
  dict_heads sample_list <> []
  /\ trimmed sample_list = [JDict [("a", JNum 1)]; JDict [("c", JList [JNum 3])]]
  /\ NestedNamespace.prepared sample_str (JList sample_list)
     = NestedNamespace.prepared sample_str
         (JList [JDict [("a", JNum 1)]; JDict [("c", JList [JNum 3])]]).
Proof.
  assert (Hne : dict_heads sample_list <> []) by discriminate.
  split; [exact Hne|]. split; [reflexivity|].
  exact (proj1 (list_keeps_first_pairs_only sample_str sample_list) Hne).
Defined.

Lemma empty_dict_in_list_raises_witness :
  dict_get "xs" [("xs", JList [JNum 1; JDict []])] = Some (JList [JNum 1; JDict []])
  /\ exists e, NestedNamespace.__init__ sample_str
                 [("xs", JList [JNum 1; JDict []])] = Raise e.
Proof.
  split; [reflexivity|].
  apply (empty_dict_in_list_raises sample_str _ "xs" [JNum 1; JDict []]);
    [reflexivity|].
  apply elem_of_cons. right. apply elem_of_cons. by left.
Defined.
